(** * The streamed learning-plan assembler of [frontend/app/page.tsx]

    A shallow embedding of [handleStartLearning] (page.tsx, lines 25-87): the
    handler reads a server-sent stream chunk by chunk, splits every chunk on
    blank lines, extracts the [content] field of each [data:] frame, appends
    it to [accumulatedJson], stops at the [[DONE]] sentinel or at the end of
    the stream, and finally parses the accumulated text as the learning plan.

    JavaScript strings are sequences of UTF-16 code units; they are modelled
    as lists of code units ([N]).  The built-ins the handler calls
    ([startsWith], [substring], [trim], [split], [JSON.parse], string
    concatenation with its implicit [ToString]) are modelled after
    ECMA-262 and ECMA-404. *)

From Stdlib Require Import List NArith Bool Arith Lia String Ascii.
Import ListNotations.

(* ================================================================= *)
(** ** JavaScript strings *)

Module JsString.

Abbreviation code_unit := N.
Abbreviation jsstring := (list code_unit).

(** An ASCII literal as a JavaScript string. *)
Definition js (s : string) : jsstring :=
  map N_of_ascii (list_ascii_of_string s).

(** Literals for wire text: an apostrophe stands for the double quote
    (code unit 34) and a dollar sign for the line feed (code unit 10);
    every other character stands for itself. *)
Definition wire_unit (a : ascii) : code_unit :=
  let c := N_of_ascii a in
  if N.eqb c 39 then 34%N else if N.eqb c 36 then 10%N else c.

Definition wire (s : string) : jsstring :=
  map wire_unit (list_ascii_of_string s).

Fixpoint eqb (s t : jsstring) : bool :=
  match s, t with
  | [], [] => true
  | c :: s', d :: t' => N.eqb c d && eqb s' t'
  | _, _ => false
  end.

(** [s.startsWith(p)] *)
Fixpoint startsWith (s p : jsstring) {struct p} : bool :=
  match p, s with
  | [], _ => true
  | d :: p', c :: s' => N.eqb c d && startsWith s' p'
  | _ :: _, [] => false
  end.

(** [s.substring(start)]: the code units from index [start] on (the index is
    clamped to the length). *)
Definition substring (start : nat) (s : jsstring) : jsstring := skipn start s.

(** WhiteSpace and LineTerminator of ECMA-262, the code points removed by
    [String.prototype.trim]: TAB, LF, VT, FF, CR, the Unicode space
    separators (category Zs), LS, PS and the byte-order mark. *)
Definition isWhiteSpace (c : code_unit) : bool :=
  (N.leb 9 c && N.leb c 13)
  || N.eqb c 32 || N.eqb c 160 || N.eqb c 5760
  || (N.leb 8192 c && N.leb c 8202)
  || N.eqb c 8232 || N.eqb c 8233 || N.eqb c 8239 || N.eqb c 8287
  || N.eqb c 12288 || N.eqb c 65279.

Fixpoint dropWhile (p : code_unit -> bool) (s : jsstring) : jsstring :=
  match s with
  | [] => []
  | c :: s' => if p c then dropWhile p s' else s
  end.

Definition trimStart (s : jsstring) : jsstring := dropWhile isWhiteSpace s.
Definition trimEnd (s : jsstring) : jsstring := rev (dropWhile isWhiteSpace (rev s)).

(** [s.trim()] *)
Definition trim (s : jsstring) : jsstring := trimEnd (trimStart s).

Definition push_front (c : code_unit) (parts : list jsstring) : list jsstring :=
  match parts with
  | [] => [[c]]
  | p :: ps => (c :: p) :: ps
  end.

(** [split_from sep skip s]: the pieces of [s] cut at the leftmost,
    non-overlapping occurrences of [sep]; the first [skip] code units belong
    to an occurrence already matched. *)
Fixpoint split_from (sep : jsstring) (skip : nat) (s : jsstring) : list jsstring :=
  match s with
  | [] => [[]]
  | c :: s' =>
      match skip with
      | S k => split_from sep k s'
      | O =>
          if startsWith s sep
          then [] :: split_from sep (pred (List.length sep)) s'
          else push_front c (split_from sep 0 s')
      end
  end.

(** [s.split(sep)] with a string separator and no limit.  The empty
    separator cuts between all code units. *)
Definition split (sep s : jsstring) : list jsstring :=
  match sep with
  | [] => map (fun c => [c]) s
  | _ :: _ => split_from sep 0 s
  end.

End JsString.
Import JsString.

(* ================================================================= *)
(** ** JSON values and [JSON.parse] *)

Module Json.

(** The values [JSON.parse] produces.  A number keeps the text of its
    literal (its value is an IEEE double, which is not modelled); an object
    keeps its members in source order, duplicates included: a property read
    sees the last member of a name, as in JavaScript. *)
#[warnings="-register-all"] Inductive JSValue : Type :=
| JNull
| JBool (b : bool)
| JNumber (literal : jsstring)
| JString (s : jsstring)
| JArray (elems : list JSValue)
| JObject (props : list (jsstring * JSValue)).

Local Open Scope N_scope.

(** JSON white space: space, TAB, LF, CR. *)
Definition isJsonSpace (c : code_unit) : bool :=
  (c =? 32) || (c =? 9) || (c =? 10) || (c =? 13).

Definition skip_ws (s : jsstring) : jsstring := dropWhile isJsonSpace s.

Definition isDigit (c : code_unit) : bool := (48 <=? c) && (c <=? 57).

Definition hexValue (c : code_unit) : option N :=
  if isDigit c then Some (c - 48)
  else if (97 <=? c) && (c <=? 102) then Some (c - 87)
  else if (65 <=? c) && (c <=? 70) then Some (c - 55)
  else None.

Definition hex4 (a b c d : code_unit) : option code_unit :=
  match hexValue a, hexValue b, hexValue c, hexValue d with
  | Some x, Some y, Some z, Some w => Some (((x * 16 + y) * 16 + z) * 16 + w)
  | _, _, _, _ => None
  end.

(** The character a two-character escape denotes, by its second character
    (the four-digit escape [u] is read by [hex4]). *)
Definition unescape (e : code_unit) : option code_unit :=
  if e =? 34 then Some 34        (* quote *)
  else if e =? 92 then Some 92   (* backslash *)
  else if e =? 47 then Some 47   (* slash *)
  else if e =? 98 then Some 8    (* b: backspace *)
  else if e =? 102 then Some 12  (* f: form feed *)
  else if e =? 110 then Some 10  (* n: line feed *)
  else if e =? 114 then Some 13  (* r: carriage return *)
  else if e =? 116 then Some 9   (* t: tab *)
  else None.

Definition push_unit (c : code_unit) (r : option (jsstring * jsstring))
  : option (jsstring * jsstring) :=
  match r with
  | Some (str, rest) => Some (c :: str, rest)
  | None => None
  end.

(** The characters of a string literal after its opening quote, up to the
    closing quote; the result is the string denoted and the text left. *)
Fixpoint parse_string_body (s : jsstring) : option (jsstring * jsstring) :=
  match s with
  | [] => None
  | c :: rest =>
      if c =? 34 then Some ([], rest)
      else if c =? 92 then
        match rest with
        | [] => None
        | e :: rest' =>
            if e =? 117 then
              match rest' with
              | h1 :: h2 :: h3 :: h4 :: rest'' =>
                  match hex4 h1 h2 h3 h4 with
                  | Some u => push_unit u (parse_string_body rest'')
                  | None => None
                  end
              | _ => None
              end
            else
              match unescape e with
              | Some u => push_unit u (parse_string_body rest')
              | None => None
              end
        end
      else if c <? 32 then None
      else push_unit c (parse_string_body rest)
  end.

Fixpoint span_digits (s : jsstring) : jsstring * jsstring :=
  match s with
  | [] => ([], [])
  | c :: s' =>
      if isDigit c then let (ds, rest) := span_digits s' in (c :: ds, rest)
      else ([], s)
  end.

(** The parts of a number literal; each function returns the text of the
    part and the text left. *)
Definition number_sign (s : jsstring) : jsstring * jsstring :=
  match s with
  | c :: s' => if c =? 45 then ([c], s') else ([], s)
  | [] => ([], s)
  end.

(** A fraction: a dot and at least one digit. *)
Definition number_fraction (s : jsstring) : option (jsstring * jsstring) :=
  match s with
  | c :: s' =>
      if c =? 46 then
        let (ds, rest) := span_digits s' in
        match ds with
        | [] => None
        | _ :: _ => Some (c :: ds, rest)
        end
      else Some ([], s)
  | [] => Some ([], s)
  end.

(** An exponent: e or E, an optional sign, at least one digit. *)
Definition number_exponent (s : jsstring) : option (jsstring * jsstring) :=
  match s with
  | c :: s' =>
      if (c =? 101) || (c =? 69) then
        let (sg, s1) := match s' with
                        | g :: s'' =>
                            if (g =? 43) || (g =? 45) then ([g], s'') else ([], s')
                        | [] => ([], s')
                        end in
        let (ds, rest) := span_digits s1 in
        match ds with
        | [] => None
        | _ :: _ => Some (c :: sg ++ ds, rest)
        end
      else Some ([], s)
  | [] => Some ([], s)
  end.

(** A number literal: an optional minus sign; an integer part, which is
    either the single digit 0 or digits not starting with 0; an optional
    fraction; an optional exponent.  The result is the text of the literal
    and the text left. *)
Definition parse_number (s : jsstring) : option (jsstring * jsstring) :=
  let (sign, s1) := number_sign s in
  let (int, s2) := span_digits s1 in
  match int with
  | [] => None
  | d :: more =>
      if (d =? 48) && negb (match more with [] => true | _ :: _ => false end)
      then None
      else
        match number_fraction s2 with
        | None => None
        | Some (fr, s3) =>
            match number_exponent s3 with
            | None => None
            | Some (ex, s4) => Some (sign ++ int ++ fr ++ ex, s4)
            end
        end
  end.

(** [expect word rest v]: the text [rest] continues with [word]. *)
Definition expect (word rest : jsstring) (v : JSValue) : option (JSValue * jsstring) :=
  if startsWith rest word then Some (v, skipn (List.length word) rest) else None.

(** Recursive descent over the JSON grammar of ECMA-404.  Each function
    returns the value read and the text left; [fuel] bounds the nesting of
    calls. *)
Fixpoint parse_value (fuel : nat) (s : jsstring) : option (JSValue * jsstring) :=
  match fuel with
  | O => None
  | S fuel' =>
      match skip_ws s with
      | [] => None
      | c :: rest =>
          if c =? 110 then expect (js "ull") rest JNull
          else if c =? 116 then expect (js "rue") rest (JBool true)
          else if c =? 102 then expect (js "alse") rest (JBool false)
          else if c =? 34 then
            match parse_string_body rest with
            | Some (str, rest') => Some (JString str, rest')
            | None => None
            end
          else if c =? 91 then
            match skip_ws rest with
            | d :: rest' =>
                if d =? 93 then Some (JArray [], rest')
                else match parse_elements fuel' rest with
                     | Some (vs, rest'') => Some (JArray vs, rest'')
                     | None => None
                     end
            | [] => None
            end
          else if c =? 123 then
            match skip_ws rest with
            | d :: rest' =>
                if d =? 125 then Some (JObject [], rest')
                else match parse_members fuel' rest with
                     | Some (ms, rest'') => Some (JObject ms, rest'')
                     | None => None
                     end
            | [] => None
            end
          else if (c =? 45) || isDigit c then
            match parse_number (c :: rest) with
            | Some (lit, rest') => Some (JNumber lit, rest')
            | None => None
            end
          else None
      end
  end

with parse_elements (fuel : nat) (s : jsstring) : option (list JSValue * jsstring) :=
  match fuel with
  | O => None
  | S fuel' =>
      match parse_value fuel' s with
      | Some (v, s1) =>
          match skip_ws s1 with
          | c :: s2 =>
              if c =? 44 then
                match parse_elements fuel' s2 with
                | Some (vs, s3) => Some (v :: vs, s3)
                | None => None
                end
              else if c =? 93 then Some ([v], s2)
              else None
          | [] => None
          end
      | None => None
      end
  end

with parse_members (fuel : nat) (s : jsstring)
  : option (list (jsstring * JSValue) * jsstring) :=
  match fuel with
  | O => None
  | S fuel' =>
      match skip_ws s with
      | q :: s0 =>
          if q =? 34 then
            match parse_string_body s0 with
            | Some (key, s1) =>
                match skip_ws s1 with
                | c :: s2 =>
                    if c =? 58 then
                      match parse_value fuel' s2 with
                      | Some (v, s3) =>
                          match skip_ws s3 with
                          | d :: s4 =>
                              if d =? 44 then
                                match parse_members fuel' s4 with
                                | Some (ms, s5) => Some ((key, v) :: ms, s5)
                                | None => None
                                end
                              else if d =? 125 then Some ([(key, v)], s4)
                              else None
                          | [] => None
                          end
                      | None => None
                      end
                    else None
                | [] => None
                end
            | None => None
            end
          else None
      | [] => None
      end
  end.

(** [JSON.parse(text)]: one value, white space around it, nothing else.
    [None] stands for the [SyntaxError] thrown on any other text.  Two
    nested calls consume at least one code unit, so twice the length of the
    text is fuel enough ([JSON_parse_fuel] below). *)
Definition JSON_parse (text : jsstring) : option JSValue :=
  match parse_value (2 * List.length text + 2) text with
  | Some (v, rest) =>
      match skip_ws rest with
      | [] => Some v
      | _ :: _ => None
      end
  | None => None
  end.

(** The last member named [key]: what a property read of a parsed object
    yields ([None] is [undefined]). *)
Fixpoint lookup (key : jsstring) (props : list (jsstring * JSValue)) : option JSValue :=
  match props with
  | [] => None
  | (k, v) :: props' =>
      match lookup key props' with
      | Some v' => Some v'
      | None => if JsString.eqb k key then Some v else None
      end
  end.

End Json.
Import Json.

(* ================================================================= *)
(** ** The handler *)

Module Page.

(** What one frame contributes (page.tsx, lines 54-64). *)
Inductive Extracted : Type :=
| Fragment (content : jsstring)   (* the text appended to [accumulatedJson] *)
| Done                            (* [break readLoop] *)
| Ignore.                         (* nothing appended, the loop goes on *)

(** A value thrown and caught by the outer [catch] (line 81). *)
Inductive Thrown : Type :=
| ErrorObject (message : jsstring)   (* [err instanceof Error] *)
| OtherValue.

(** The texts [setError] receives on line 82. *)
Inductive ErrorMessage : Type :=
| RequestFailed (status : N)   (* the message of the Error of line 40, with the status *)
| Message (m : jsstring)       (* [err.message] of any other Error *)
| UnknownError.                (* the fixed text for a thrown value that is no Error *)

(** How one run of the handler ends. *)
Inductive StreamOutcome : Type :=
| Success (finalPlan : JSValue)         (* [setLearningPlan(finalPlan)], line 72 *)
| ParseFailure (raw : jsstring)         (* [setError] of line 78; line 77 logs the buffer *)
| TransportFailure (reason : ErrorMessage).   (* [setError] of line 82 *)

(** The calls the handler makes on its collaborators, in order. *)
Inductive Event : Type :=
| Read                          (* [reader.read()], line 47 *)
| FinalParse (text : jsstring). (* [JSON.parse(accumulatedJson)], line 71 *)

(** What [reader.read()] resolves to while the stream lasts; the end of the
    list is [done]. *)
Inductive ReadResult : Type :=
| Chunk (value : jsstring)
| ReadFails (err : Thrown).

(** The answer of [fetch]: its status and its body stream ([null] for a
    response without body). *)
Record Response : Type := {
  status : N;
  body : option (list ReadResult)
}.

(** [response.ok]: the status is in the range 200-299. *)
Definition ok (response : Response) : bool :=
  N.leb 200 (status response) && N.leb (status response) 299.

Inductive FetchResult : Type :=
| Rejected (err : Thrown)
| Resolved (response : Response).

(** The exits of the [readLoop] (lines 46-67). *)
Inductive LoopExit : Type :=
| Exited (accumulatedJson : jsstring)   (* [break] on [done] or on the sentinel *)
| Threw (err : Thrown).

(** [dataContent] of line 55: [line.substring(5).trim()], the payload of
    a [data:] frame. *)
Definition dataContent (line : jsstring) : jsstring := trim (substring 5 line).

(** The frame delimiter of line 52: two line feeds. *)
Definition delimiter : jsstring := [10; 10]%N.

Section Handler.

(** [Number::toString] of the double a number literal denotes (floating
    point: left abstract). *)
Variable number_to_string : jsstring -> jsstring.

Definition has_own (key : jsstring) (props : list (jsstring * JSValue)) : bool :=
  existsb (fun kv => JsString.eqb (fst kv) key) props.

(** [ToString(ToPrimitive(v))] for a value [JSON.parse] made; [None] is the
    [TypeError] of [OrdinaryToPrimitive].  An array goes through
    [Array.prototype.join], which writes nothing for [null]; a plain object
    through [Object.prototype.toString], unless a member named [toString]
    (never callable) shadows it. *)
Fixpoint ToString (v : JSValue) : option jsstring :=
  match v with
  | JNull => Some (js "null")
  | JBool true => Some (js "true")
  | JBool false => Some (js "false")
  | JNumber literal => Some (number_to_string literal)
  | JString s => Some s
  | JArray elems =>
      (fix join (es : list JSValue) : option jsstring :=
         match es with
         | [] => Some []
         | e :: es' =>
             match match e with JNull => Some [] | _ => ToString e end, join es' with
             | Some t, Some r =>
                 Some (match es' with [] => t | _ :: _ => t ++ 44%N :: r end)
             | _, _ => None
             end
         end) elems
  | JObject props =>
      if has_own (js "toString") props then None else Some (js "[object Object]")
  end.

(** [parsed.content] (line 61): reading a property of [null] throws
    ([None]); a primitive or an array has no such property and an object
    only when the text had a member of that name ([Some None] is
    [undefined]). *)
Definition content_of (parsed : JSValue) : option (option JSValue) :=
  match parsed with
  | JNull => None
  | JObject props => Some (lookup (js "content") props)
  | _ => Some None
  end.

(** The text [accumulatedJson += x] appends. *)
Definition appended (x : option JSValue) : option jsstring :=
  match x with
  | None => Some (js "undefined")
  | Some v => ToString v
  end.

(** The body of the [for] loop, lines 54-64.  Every exception of the [try]
    block (the [SyntaxError] of [JSON.parse], the [TypeError]s of the
    property read and of the concatenation) is caught on line 62. *)
Definition extract (line : jsstring) : Extracted :=
  if startsWith line (js "data:") then
    if JsString.eqb (dataContent line) (js "[DONE]") then Done
    else
      match JSON_parse (dataContent line) with
      | Some parsed =>
          match content_of parsed with
          | Some x =>
              match appended x with
              | Some text => Fragment text
              | None => Ignore
              end
          | None => Ignore
          end
      | None => Ignore
      end
  else Ignore.

(** [for (const line of lines)], lines 53-66: the buffer after the loop, and
    whether it left through [break readLoop]. *)
Fixpoint for_lines (lines : list jsstring) (accumulatedJson : jsstring)
  : jsstring * bool :=
  match lines with
  | [] => (accumulatedJson, false)
  | line :: lines' =>
      match extract line with
      | Done => (accumulatedJson, true)
      | Fragment content => for_lines lines' (accumulatedJson ++ content)
      | Ignore => for_lines lines' accumulatedJson
      end
  end.

(** [readLoop: while (true)], lines 46-67, with the reads it makes. *)
Fixpoint readLoop (reader : list ReadResult) (accumulatedJson : jsstring)
  : LoopExit * list Event :=
  match reader with
  | [] => (Exited accumulatedJson, [Read])
  | ReadFails err :: _ => (Threw err, [Read])
  | Chunk value :: reader' =>
      match for_lines (split delimiter value) accumulatedJson with
      | (acc, true) => (Exited acc, [Read])
      | (acc, false) =>
          let (exit, events) := readLoop reader' acc in (exit, Read :: events)
      end
  end.

(** The final [try] block, lines 69-79: the empty buffer throws before any
    parse; both exceptions end in the [catch] of line 76. *)
Definition final_parse (accumulatedJson : jsstring) : StreamOutcome * list Event :=
  match accumulatedJson with
  | [] => (ParseFailure accumulatedJson, [])
  | _ :: _ =>
      match JSON_parse accumulatedJson with
      | Some finalPlan => (Success finalPlan, [FinalParse accumulatedJson])
      | None => (ParseFailure accumulatedJson, [FinalParse accumulatedJson])
      end
  end.

(** The outer [catch], line 82. *)
Definition caught (err : Thrown) : StreamOutcome :=
  match err with
  | ErrorObject message => TransportFailure (Message message)
  | OtherValue => TransportFailure UnknownError
  end.

(** [handleStartLearning] from the answer of [fetch] on (lines 33-87). *)
Definition handleStartLearning (fetched : FetchResult) : StreamOutcome * list Event :=
  match fetched with
  | Rejected err => (caught err, [])
  | Resolved response =>
      match ok response, body response with
      | true, Some reader =>
          match readLoop reader [] with
          | (Exited accumulatedJson, reads) =>
              let (outcome, parses) := final_parse accumulatedJson in
              (outcome, reads ++ parses)
          | (Threw err, reads) => (caught err, reads)
          end
      | _, _ => (TransportFailure (RequestFailed (status response)), [])
      end
  end.

(** A response with status 200 whose stream delivers [chunks] and closes. *)
Definition streamed (chunks : list jsstring) : FetchResult :=
  Resolved {| status := 200; body := Some (map Chunk chunks) |}.

Definition outcome (fetched : FetchResult) : StreamOutcome :=
  fst (handleStartLearning fetched).

Definition events (fetched : FetchResult) : list Event :=
  snd (handleStartLearning fetched).

End Handler.

End Page.
Import Page.

(** The plan type of lines 8-16: [{title: string, tasks: Task[]}] with
    [Task = {description: string, subtasks: string[]}]. *)
Definition is_string (v : JSValue) : bool :=
  match v with JString _ => true | _ => false end.

Definition is_Task (v : JSValue) : bool :=
  match v with
  | JObject props =>
      match lookup (js "description") props, lookup (js "subtasks") props with
      | Some (JString _), Some (JArray subtasks) => forallb is_string subtasks
      | _, _ => false
      end
  | _ => false
  end.

Definition is_LearningPlan (v : JSValue) : bool :=
  match v with
  | JObject props =>
      match lookup (js "title") props, lookup (js "tasks") props with
      | Some (JString _), Some (JArray tasks) => forallb is_Task tasks
      | _, _ => false
      end
  | _ => false
  end.

(** The interfaces themselves, and the value [JSON.parse] makes for a
    plan. *)
Record Task : Type := {
  description : jsstring;
  subtasks : list jsstring
}.

Record LearningPlan : Type := {
  title : jsstring;
  tasks : list Task
}.

Definition task_value (t : Task) : JSValue :=
  JObject [(js "description", JString (description t));
           (js "subtasks", JArray (map JString (subtasks t)))].

Definition plan_value (p : LearningPlan) : JSValue :=
  JObject [(js "title", JString (title p));
           (js "tasks", JArray (map task_value (tasks p)))].

(* ================================================================= *)
(** ** The wire framing *)

(** Modelled from the spec: the framing of the stream (section 6, "Wire
    framing consumed"); the server that writes it is not part of the
    sources.  An event is one line that begins with [data:], followed either
    by a JSON object with a [content] string member or by the sentinel
    [[DONE]]; events are separated by a blank line. *)
Inductive WireFrame : Type :=
| DataFrame (text content : jsstring)
| SentinelFrame (text : jsstring).

Definition frame_text (w : WireFrame) : jsstring :=
  match w with
  | DataFrame text _ => text
  | SentinelFrame text => text
  end.

Definition one_line (text : jsstring) : bool :=
  forallb (fun c => negb (N.eqb c 10)) text.

(** Modelled from the spec: [framed w] holds when the text of [w] is an
    event as the framing describes it, carrying the content (or the
    sentinel) that [w] names. *)
Definition framed (w : WireFrame) : bool :=
  match w with
  | DataFrame text content =>
      startsWith text (js "data:") && one_line text
      && match JSON_parse (dataContent text) with
         | Some (JObject props) =>
             match lookup (js "content") props with
             | Some (JString c) => JsString.eqb c content
             | _ => false
             end
         | _ => false
         end
  | SentinelFrame text =>
      startsWith text (js "data:") && one_line text
      && JsString.eqb (dataContent text) (js "[DONE]")
  end.

(** Modelled from the spec: the text of a chunk that holds the events
    [group], each followed by its blank line. *)
Definition chunk_of (group : list WireFrame) : jsstring :=
  List.concat (map (fun w => frame_text w ++ delimiter) group).

(** Modelled from the spec: the document text a sequence of events
    carries, that is the contents of the data events before the first
    sentinel. *)
Fixpoint carried (ws : list WireFrame) : jsstring :=
  match ws with
  | [] => []
  | DataFrame _ content :: ws' => content ++ carried ws'
  | SentinelFrame _ :: _ => []
  end.

Definition is_sentinel (w : WireFrame) : bool :=
  match w with SentinelFrame _ => true | DataFrame _ _ => false end.

(** Modelled from the spec: a writer of such events (the example of the
    specification shows its output).  The content is written as a JSON
    string: the quote and the backslash are escaped, the control characters
    are written with their short escape or with four hexadecimal digits,
    any other code unit stands for itself. *)
Definition hex_digit (n : N) : code_unit :=
  if N.ltb n 10 then (48 + n)%N else (87 + n)%N.

Definition escape_unit (u : code_unit) : jsstring :=
  if N.eqb u 34 then [92; 34]%N
  else if N.eqb u 92 then [92; 92]%N
  else if N.eqb u 8 then [92; 98]%N
  else if N.eqb u 9 then [92; 116]%N
  else if N.eqb u 10 then [92; 110]%N
  else if N.eqb u 12 then [92; 102]%N
  else if N.eqb u 13 then [92; 114]%N
  else if N.ltb u 32 then
    [92; 117; 48; 48; hex_digit (u / 16); hex_digit (u mod 16)]%N
  else [u].

Definition escaped (s : jsstring) : jsstring := flat_map escape_unit s.

Definition quoted (s : jsstring) : jsstring := 34%N :: escaped s ++ [34%N].

(** Modelled from the spec: the object with its only member [content]. *)
Definition content_object (content : jsstring) : jsstring :=
  (123%N :: quoted (js "content") ++ 58%N :: quoted content) ++ [125%N].

(** Modelled from the spec: the event for one fragment. *)
Definition data_event (content : jsstring) : jsstring :=
  js "data: " ++ content_object content.

Definition done_event : jsstring := js "data: [DONE]".

(** Modelled from the spec: the events for the fragments [contents],
    closed by the sentinel when [sentinel] is set. *)
Definition events_for (contents : list jsstring) (sentinel : bool) : list WireFrame :=
  map (fun c => DataFrame (data_event c) c) contents
  ++ (if sentinel then [SentinelFrame done_event] else []).

(** Modelled from the spec: the serialized document (section 8, "any valid
    serialized FinalDocument"), written without white space, members in the
    order of the schema. *)
Fixpoint join_comma (parts : list jsstring) : jsstring :=
  match parts with
  | [] => []
  | [part] => part
  | part :: parts' => part ++ 44%N :: join_comma parts'
  end.

Definition array_text (parts : list jsstring) : jsstring :=
  91%N :: join_comma parts ++ [93%N].

(** Modelled from the spec: the text of a task and of a plan. *)
Definition task_text (t : Task) : jsstring :=
  123%N :: quoted (js "description") ++ 58%N :: quoted (description t)
    ++ 44%N :: quoted (js "subtasks") ++ 58%N
    :: array_text (map quoted (subtasks t)) ++ [125%N].

Definition plan_text (p : LearningPlan) : jsstring :=
  123%N :: quoted (js "title") ++ 58%N :: quoted (title p)
    ++ 44%N :: quoted (js "tasks") ++ 58%N
    :: array_text (map task_text (tasks p)) ++ [125%N].

(** A stand-in for number formatting in examples: the literal itself. *)
Definition literal_text (literal : jsstring) : jsstring := literal.

(* ================================================================= *)
(** ** Notions the properties are stated with *)

(** The frames of a sequence of chunks, in the order the loops visit
    them. *)
Definition frames (chunks : list jsstring) : list jsstring :=
  List.concat (map (split delimiter) chunks).

(** A frame is malformed when it lacks the [data:] prefix, or when its
    payload is not the sentinel and [JSON.parse] rejects it. *)
Definition malformed (line : jsstring) : bool :=
  negb (startsWith line (js "data:"))
  || (negb (JsString.eqb (dataContent line) (js "[DONE]"))
      && match JSON_parse (dataContent line) with None => true | Some _ => false end).

Definition well_formed (line : jsstring) : bool := negb (malformed line).

(** The outcome is a function of the exit of the read loop. *)
Definition conclude (exit : LoopExit) : StreamOutcome :=
  match exit with
  | Exited acc => fst (final_parse acc)
  | Threw err => caught err
  end.

Section Sentinel.

Variable number_to_string : jsstring -> jsstring.

(** [sentinel_seen lines]: some frame of [lines] is the sentinel. *)
Definition is_done (e : Extracted) : bool :=
  match e with Done => true | _ => false end.

Definition sentinel_seen (lines : list jsstring) : bool :=
  existsb (fun line => is_done (extract number_to_string line)) lines.

End Sentinel.

(** [reads f0 text v]: with fuel [f0] or more, the parser reads [text] as
    [v] and leaves what follows it. *)
Definition reads (f0 : nat) (text : jsstring) (v : JSValue) : Prop :=
  forall f rest, (f0 <= f)%nat -> parse_value f (text ++ rest) = Some (v, rest).

(** The text begins a value: its first code unit is neither white space
    nor a closing bracket. *)
Definition opens_value (text : jsstring) : bool :=
  match text with
  | c :: _ => negb (isJsonSpace c) && negb (N.eqb c 93)
  | [] => false
  end.

(** The fuel that reads a task. *)
Definition task_fuel (t : Task) : nat := (List.length (subtasks t) + 5)%nat.

From Stdlib Require DecimalN.

(* ================================================================= *)
(** ** More notions for the stream handler *)

(** [parts.join(sep)] on strings: the inverse of the split of line 52. *)
Fixpoint join_with (sep : jsstring) (parts : list jsstring) : jsstring :=
  match parts with
  | [] => []
  | [part] => part
  | part :: parts' => part ++ sep ++ join_with sep parts'
  end.

(** The frame [line] carries the string [content]: it has the prefix of
    line 54 and its payload parses to an object whose [content] member is
    that string. *)
Definition carries (line content : jsstring) : bool :=
  startsWith line (js "data:")
  && match JSON_parse (dataContent line) with
     | Some (JObject props) =>
         match lookup (js "content") props with
         | Some (JString c) => JsString.eqb c content
         | _ => false
         end
     | _ => false
     end.

(** A stand-in for [ToBoolean] of a number in examples: whether the
    literal has a digit other than 0 (right for the short literals without
    exponent of the examples). *)
Definition literal_truthy (literal : jsstring) : bool :=
  existsb (fun c => N.leb 49 c && N.leb c 57) literal.

(** A parsed payload that is neither [null] nor an object. *)
Definition is_plain (v : JSValue) : bool :=
  match v with
  | JNull | JObject _ => false
  | _ => true
  end.

(* ================================================================= *)
(** ** The welcome screen ([components/welcome-screen.tsx], lines 17-34) *)

Module Welcome.

(** The two modes of the toggle group (line 19). *)
Inductive Mode : Type := quick | deep.

(** The state of the two forms (lines 18-20). *)
Record Form : Type := {
  topic : jsstring;
  mode : Mode;
  docContent : jsstring
}.

(** The calls a submit makes on the page. *)
Inductive Call : Type :=
| onStartLearning (topic : jsstring) (mode : Mode)
| onStartLearningFromDoc (content : jsstring).

(** [handleTopicSubmit], lines 22-27: the empty string is the only falsy
    string. *)
Definition handleTopicSubmit (form : Form) : option Call :=
  match trim (topic form) with
  | [] => None
  | _ :: _ => Some (onStartLearning (trim (topic form)) (mode form))
  end.

(** [handleDocSubmit], lines 29-34. *)
Definition handleDocSubmit (form : Form) : option Call :=
  if Nat.ltb 100 (List.length (trim (docContent form)))
  then Some (onStartLearningFromDoc (trim (docContent form)))
  else None.

(** [disabled={!topic.trim()}], line 72. *)
Definition topicSubmitDisabled (form : Form) : bool :=
  match trim (topic form) with
  | [] => true
  | _ :: _ => false
  end.

(** [disabled={docContent.trim().length < 100}], line 89. *)
Definition docSubmitDisabled (form : Form) : bool :=
  Nat.ltb (List.length (trim (docContent form))) 100.

End Welcome.

(* ================================================================= *)
(** ** The input of the coach panel ([components/coach-panel.tsx], lines 47-53) *)

Module Coach.

(** [handleSendMessage], lines 47-53: the question handed to
    [onAddMessage], if any, and the input value after the call. *)
Definition handleSendMessage (inputValue : jsstring) : option jsstring * jsstring :=
  match trim inputValue with
  | [] => (None, inputValue)
  | _ :: _ => (Some (trim inputValue), [])
  end.

(** [disabled={!inputValue.trim()}], line 147. *)
Definition sendDisabled (inputValue : jsstring) : bool :=
  match trim inputValue with
  | [] => true
  | _ :: _ => false
  end.

End Coach.

(* ================================================================= *)
(** ** The subtasks of the dashboard
    ([components/welcome-screen.tsx], lines 141-162 and 321-371;
    [components/learning-plan.tsx], lines 50-55) *)

Module Dashboard.

(** [Set<string>]: its members in insertion order, each one once. *)
Abbreviation StringSet := (list (list N)).

Definition has (s : StringSet) (x : jsstring) : bool :=
  existsb (JsString.eqb x) s.

(** [s.add(x)] leaves a set that has [x] as it is. *)
Definition add (s : StringSet) (x : jsstring) : StringSet :=
  if has s x then s else s ++ [x].

Definition delete (s : StringSet) (x : jsstring) : StringSet :=
  filter (fun y => negb (JsString.eqb y x)) s.

Definition size (s : StringSet) : nat := List.length s.

(** The digits of a decimal number as code units. *)
Fixpoint uint_units (d : Decimal.uint) : jsstring :=
  match d with
  | Decimal.Nil => []
  | Decimal.D0 d' => 48%N :: uint_units d'
  | Decimal.D1 d' => 49%N :: uint_units d'
  | Decimal.D2 d' => 50%N :: uint_units d'
  | Decimal.D3 d' => 51%N :: uint_units d'
  | Decimal.D4 d' => 52%N :: uint_units d'
  | Decimal.D5 d' => 53%N :: uint_units d'
  | Decimal.D6 d' => 54%N :: uint_units d'
  | Decimal.D7 d' => 55%N :: uint_units d'
  | Decimal.D8 d' => 56%N :: uint_units d'
  | Decimal.D9 d' => 57%N :: uint_units d'
  end.

(** An array index in a template literal: [Number::toString] writes the
    index, an integer below 2^32, with its decimal digits. *)
Definition index_text (index : N) : jsstring := uint_units (N.to_uint index).

(** [`${taskIndex}-${subtaskIndex}`], lines 152 and 369 (line 74 of
    learning-plan.tsx). *)
Definition subtaskId (taskIndex subtaskIndex : N) : jsstring :=
  index_text taskIndex ++ 45%N :: index_text subtaskIndex.

(** [toggleSubtask], lines 151-162: the next value of
    [completedSubtasks]. *)
Definition toggleSubtask (completedSubtasks : StringSet) (taskIndex subtaskIndex : N)
  : StringSet :=
  let newCompleted := completedSubtasks in
  if has newCompleted (subtaskId taskIndex subtaskIndex)
  then delete newCompleted (subtaskId taskIndex subtaskIndex)
  else add newCompleted (subtaskId taskIndex subtaskIndex).

(** The indices of an array, as [map] and [filter] hand them to their
    callback. *)
Definition indices {A : Type} (l : list A) : list N :=
  map N.of_nat (seq 0 (List.length l)).

(** [totalSubtasks], line 321, on a plan of the declared type. *)
Definition totalSubtasks (plan : LearningPlan) : nat :=
  fold_left (fun sum task => sum + List.length (subtasks task)) (tasks plan) 0.

(** [completedCount], line 322. *)
Definition completedCount (completedSubtasks : StringSet) : nat :=
  size completedSubtasks.

(** [taskCompletedSubtasks], lines 368-370 (lines 52-54 of
    learning-plan.tsx): the subtasks of the task whose identifier is in the
    set. *)
Definition taskCompletedSubtasks (completedSubtasks : StringSet)
           (taskIndex : N) (task : Task) : nat :=
  List.length
    (filter (fun indexed => has completedSubtasks (subtaskId taskIndex (fst indexed)))
            (combine (indices (subtasks task)) (subtasks task))).

(** [isTaskCompleted] of the plan view (learning-plan.tsx, line 55). *)
Definition isTaskCompleted_plan (completedSubtasks : StringSet)
           (taskIndex : N) (task : Task) : bool :=
  Nat.eqb (taskCompletedSubtasks completedSubtasks taskIndex task)
          (List.length (subtasks task)).

(** [isTaskCompleted] of the dashboard (welcome-screen.tsx, line 371). *)
Definition isTaskCompleted_dashboard (completedSubtasks : StringSet)
           (taskIndex : N) (task : Task) : bool :=
  Nat.ltb 0 (List.length (subtasks task))
  && Nat.eqb (taskCompletedSubtasks completedSubtasks taskIndex task)
             (List.length (subtasks task)).

(** The check boxes of a plan (learning-plan.tsx, lines 50 and 73): one
    for each subtask of each task. *)
Definition checkbox (plan : LearningPlan) (taskIndex subtaskIndex : N) : bool :=
  match nth_error (tasks plan) (N.to_nat taskIndex) with
  | Some task => Nat.ltb (N.to_nat subtaskIndex) (List.length (subtasks task))
  | None => false
  end.

(** The set after a sequence of clicks on check boxes. *)
Definition clicks (boxes : list (N * N)) (completedSubtasks : StringSet) : StringSet :=
  fold_left (fun s box => toggleSubtask s (fst box) (snd box)) boxes completedSubtasks.

End Dashboard.

(** The identifiers of the check boxes of a plan, task by task. *)
Definition indexed {A : Type} (l : list A) : list (N * A) :=
  combine (Dashboard.indices l) l.

Definition box_ids (plan : LearningPlan) : list jsstring :=
  flat_map (fun it => map (Dashboard.subtaskId (fst it))
                          (Dashboard.indices (subtasks (snd it))))
           (indexed (tasks plan)).

(* ================================================================= *)
(** ** The page ([app/page.tsx]): its state and its other handlers;
       the screens of the dashboard ([components/welcome-screen.tsx],
       lines 296-319) *)

Module Home.

(** [currentView], line 19. *)
Inductive View : Type := welcome | dashboard.

(** The texts [setError] receives. *)
Inductive ErrorText : Type :=
| RequestFailedText (status : N)     (* lines 40 and 104: the fixed text and the status *)
| ParseErrorText                     (* the fixed text of line 78 *)
| NoPlanText                         (* the fixed text of line 111 *)
| MessageText (message : jsstring)   (* the message of an Error thrown to the handler,
                                        or of the Error made from the detail on line 111 *)
| SyntaxErrorText                    (* the message the engine gives a body that is no JSON *)
| TypeErrorText                      (* the message the engine gives a TypeError *)
| UnknownErrorText.                  (* the fixed text of lines 82 and 114 *)

(** The state of [Home], lines 19-23; [JNull] is [null]. *)
Record State : Type := {
  currentView : View;
  learningTopic : jsstring;
  learningPlan : JSValue;
  isLoading : bool;
  error : option ErrorText
}.

(** The state [useState] starts from. *)
Definition initial : State :=
  {| currentView := welcome; learningTopic := []; learningPlan := JNull;
     isLoading := false; error := None |}.

(** The calls on the setters of the state. *)
Inductive Setter : Type :=
| setLearningTopic (topic : jsstring)
| setCurrentView (view : View)
| setIsLoading (loading : bool)
| setError (text : option ErrorText)
| setLearningPlan (plan : JSValue).

Definition apply (st : State) (call : Setter) : State :=
  match call with
  | setLearningTopic topic =>
      {| currentView := currentView st; learningTopic := topic;
         learningPlan := learningPlan st; isLoading := isLoading st; error := error st |}
  | setCurrentView view =>
      {| currentView := view; learningTopic := learningTopic st;
         learningPlan := learningPlan st; isLoading := isLoading st; error := error st |}
  | setIsLoading loading =>
      {| currentView := currentView st; learningTopic := learningTopic st;
         learningPlan := learningPlan st; isLoading := loading; error := error st |}
  | setError text =>
      {| currentView := currentView st; learningTopic := learningTopic st;
         learningPlan := learningPlan st; isLoading := isLoading st; error := text |}
  | setLearningPlan plan =>
      {| currentView := currentView st; learningTopic := learningTopic st;
         learningPlan := plan; isLoading := isLoading st; error := error st |}
  end.

(** The state after a sequence of calls. *)
Definition run (calls : list Setter) (st : State) : State := fold_left apply calls st.

(** The answer to the request of line 97: the status and the body that
    [response.json()] reads. *)
Inductive BodyRead : Type :=
| BodyText (text : jsstring)
| BodyFails (err : Thrown).

Record DocResponse : Type := {
  doc_status : N;
  doc_body : BodyRead
}.

Definition doc_ok (response : DocResponse) : bool :=
  N.leb 200 (doc_status response) && N.leb (doc_status response) 299.

Inductive DocFetch : Type :=
| DocRejected (err : Thrown)
| DocResolved (response : DocResponse).

(** How [handleStartLearningFromDoc] ends. *)
Inductive DocOutcome : Type :=
| PlanSet (plan : JSValue)          (* [setLearningPlan(data.plan)], line 109 *)
| ErrorSet (text : ErrorText).      (* [setError], line 114 *)

(** The text of the topic set on line 90. *)
Definition document_topic : jsstring :=
  [20174; 25991; 26723; 29983; 25104; 30340; 23398; 20064; 35745; 21010]%N.

(** What the dashboard shows in place of its content (lines 296-319). *)
Inductive Screen : Type :=
| LoadingNotice                    (* line 296 *)
| ErrorNotice (text : ErrorText)   (* line 304 *)
| NotLoadedNotice                  (* line 313 *)
| PlanView (plan : JSValue).       (* line 325 *)

Inductive Shown : Type :=
| WelcomePage
| DashboardPage (screen : Screen).

(** [if (error)]: a text is truthy unless it is the empty string; the fixed
    texts and the messages of the engine are not empty. *)
Definition shown_error (text : option ErrorText) : option ErrorText :=
  match text with
  | Some (MessageText []) => None
  | other => other
  end.

(** [err instanceof Error ? err.message : ...], lines 82 and 114. *)
Definition thrown_text (err : Thrown) : ErrorText :=
  match err with
  | ErrorObject message => MessageText message
  | OtherValue => UnknownErrorText
  end.

Definition reason_text (reason : ErrorMessage) : ErrorText :=
  match reason with
  | RequestFailed status => RequestFailedText status
  | Message m => MessageText m
  | UnknownError => UnknownErrorText
  end.

(** [data.name] for a name that no prototype defines: reading a property
    of [null] throws ([None]); a primitive or an array has no such
    property ([Some None] is [undefined]). *)
Definition member (name : jsstring) (data : JSValue) : option (option JSValue) :=
  match data with
  | JNull => None
  | JObject props => Some (lookup name props)
  | _ => Some None
  end.

Section Runtime.

(** [Number::toString] and [ToBoolean] of the double a number literal
    denotes (floating point: left abstract). *)
Variable number_to_string : jsstring -> jsstring.
Variable number_truthy : jsstring -> bool.

(** [ToBoolean] of a parsed value. *)
Definition ToBoolean (v : JSValue) : bool :=
  match v with
  | JNull => false
  | JBool b => b
  | JNumber literal => number_truthy literal
  | JString s => match s with [] => false | _ :: _ => true end
  | JArray _ | JObject _ => true
  end.

Definition truthy (x : option JSValue) : bool :=
  match x with
  | None => false
  | Some v => ToBoolean v
  end.

(** The [else] branch of line 110: [throw new Error(data.detail || ...)],
    caught on line 113.  The constructor converts a truthy detail with
    [ToString], which may itself throw. *)
Definition no_plan (data : JSValue) : DocOutcome :=
  match member (js "detail") data with
  | Some (Some detail) =>
      if ToBoolean detail then
        match ToString number_to_string detail with
        | Some message => ErrorSet (MessageText message)
        | None => ErrorSet TypeErrorText
        end
      else ErrorSet NoPlanText
  | _ => ErrorSet NoPlanText
  end.

(** [handleStartLearningFromDoc] from the answer of [fetch] on (lines
    96-118). *)
Definition handleStartLearningFromDoc (fetched : DocFetch) : DocOutcome :=
  match fetched with
  | DocRejected err => ErrorSet (thrown_text err)
  | DocResolved response =>
      if doc_ok response then
        match doc_body response with
        | BodyFails err => ErrorSet (thrown_text err)
        | BodyText text =>
            match JSON_parse text with
            | None => ErrorSet SyntaxErrorText
            | Some data =>
                match member (js "success") data, member (js "plan") data with
                | Some success, Some plan =>
                    if truthy success && truthy plan then
                      match plan with
                      | Some value => PlanSet value
                      | None => no_plan data
                      end
                    else no_plan data
                | _, _ => ErrorSet TypeErrorText
                end
            end
        end
      else ErrorSet (RequestFailedText (doc_status response))
  end.

(** The calls [handleStartLearning] makes on the setters (lines 26-30,
    72, 78, 82 and 85), in order. *)
Definition calls_handleStartLearning (topic : jsstring) (fetched : FetchResult)
  : list Setter :=
  [setLearningTopic topic; setCurrentView dashboard; setIsLoading true;
   setError None; setLearningPlan JNull]
  ++ match Page.outcome number_to_string fetched with
     | Success finalPlan => [setLearningPlan finalPlan]
     | ParseFailure _ => [setError (Some ParseErrorText)]
     | TransportFailure reason => [setError (Some (reason_text reason))]
     end
  ++ [setIsLoading false].

(** The calls [handleStartLearningFromDoc] makes (lines 90-94, 109, 114
    and 117). *)
Definition calls_handleStartLearningFromDoc (fetched : DocFetch) : list Setter :=
  [setLearningTopic document_topic; setCurrentView dashboard; setIsLoading true;
   setError None; setLearningPlan JNull]
  ++ match handleStartLearningFromDoc fetched with
     | PlanSet plan => [setLearningPlan plan]
     | ErrorSet text => [setError (Some text)]
     end
  ++ [setIsLoading false].

(** The calls of [handleBackToWelcome], lines 121-127. *)
Definition calls_handleBackToWelcome : list Setter :=
  [setCurrentView welcome; setLearningTopic []; setLearningPlan JNull;
   setIsLoading false; setError None].

(** The screen of the dashboard, lines 296-319, once [currentPlan] has
    followed the plan it is given (lines 137-139). *)
Definition dashboard_screen (loading : bool) (text : option ErrorText) (currentPlan : JSValue)
  : Screen :=
  if loading then LoadingNotice
  else match shown_error text with
       | Some e => ErrorNotice e
       | None => if ToBoolean currentPlan then PlanView currentPlan else NotLoadedNotice
       end.

(** What [Home] renders, lines 129-146. *)
Definition render (st : State) : Shown :=
  match currentView st with
  | welcome => WelcomePage
  | dashboard =>
      DashboardPage (dashboard_screen (isLoading st) (error st) (learningPlan st))
  end.

End Runtime.

End Home.

(* ================================================================= *)
(** ** The chat of the dashboard ([components/welcome-screen.tsx], lines
       134-149 and 164-294) *)

Module Chat.

Import Dashboard Home.

Inductive Role : Type := user | assistant.

(** The string literals of the handlers, by what they say. *)
Inductive Fixed : Type :=
| no_valid_plan           (* line 205 *)
| need_feedback           (* line 209 *)
| adjusting               (* line 213 *)
| adjust_unavailable      (* line 221 *)
| plan_updated            (* line 226 *)
| no_adjusted_plan        (* line 228 *)
| adjust_sorry            (* line 231 *)
| share_first             (* line 238 *)
| coach_unavailable       (* line 260 *)
| answer_sorry            (* line 271 *)
| elaborating             (* line 276 *)
| elaborate_unavailable   (* line 283 *)
| no_elaboration          (* line 289 *)
| elaborate_sorry.        (* line 292 *)

(** The errors the engine itself throws; their messages are its own. *)
Inductive EngineError : Type := SyntaxError | TypeError.

(** The content of a message. *)
Inductive Content : Type :=
| Welcome (topic : jsstring)        (* the template of line 147 *)
| Literal (text : Fixed)
| Text (s : jsstring)               (* a string: a question, the message of an Error *)
| Value (v : JSValue)               (* a member of a reply, as it is *)
| Advised (answer : jsstring)       (* an answer followed by the postscript of line 266 *)
| Feedback (positive : bool) (about : Content)   (* the templates of lines 246-247 *)
| EngineMessage (e : EngineError).

Record ChatMessage : Type := {
  id : jsstring;
  role : Role;
  content : Content
}.

(** The state of [LearningDashboard], lines 135-149.  The plan is the
    value the page hands over or a reply brought, of any shape. *)
Record State : Type := {
  currentPlan : JSValue;
  completedSubtasks : StringSet;
  currentTaskIndex : N;
  chatMessages : list ChatMessage
}.

Definition role_text (r : Role) : jsstring :=
  match r with
  | user => js "user"
  | assistant => js "assistant"
  end.

(** The state of the first render; [now] is the value of [Date.now()], a
    count of milliseconds that [Number::toString] writes in decimal
    digits. *)
Definition mount (topic : jsstring) (plan : JSValue) (now : N) : State :=
  {| currentPlan := plan;
     completedSubtasks := [];
     currentTaskIndex := 0;
     chatMessages := [ {| id := js "coach-welcome-" ++ index_text now;
                          role := assistant;
                          content := Welcome topic |} ] |}.

(** The message [addChatMessage] makes (lines 165-166): its identifier is
    [`${message.role}-${Date.now()}`]. *)
Definition message (r : Role) (c : Content) (now : N) : ChatMessage :=
  {| id := role_text r ++ 45%N :: index_text now; role := r; content := c |}.

(** [addChatMessage], lines 164-167. *)
Definition addChatMessage (st : State) (r : Role) (c : Content) (now : N) : State :=
  {| currentPlan := currentPlan st;
     completedSubtasks := completedSubtasks st;
     currentTaskIndex := currentTaskIndex st;
     chatMessages := chatMessages st ++ [message r c now] |}.

Definition setCurrentPlan (st : State) (plan : JSValue) : State :=
  {| currentPlan := plan;
     completedSubtasks := completedSubtasks st;
     currentTaskIndex := currentTaskIndex st;
     chatMessages := chatMessages st |}.

Definition setCompletedSubtasks (st : State) (s : StringSet) : State :=
  {| currentPlan := currentPlan st;
     completedSubtasks := s;
     currentTaskIndex := currentTaskIndex st;
     chatMessages := chatMessages st |}.

(** [e instanceof Error ? e.message : ...] of the [catch] blocks. *)
Definition caught_content (err : Thrown) (sorry : Fixed) : Content :=
  match err with
  | ErrorObject message => Text message
  | OtherValue => Literal sorry
  end.

(** What the [try] block has after [await response.json()]: the data, or
    the content of the message of what was thrown before.  [unavailable]
    is the literal of the Error thrown for a status outside 200-299. *)
Definition awaited (reply : DocFetch) (unavailable sorry : Fixed) : Content + JSValue :=
  match reply with
  | DocRejected err => inl (caught_content err sorry)
  | DocResolved response =>
      if doc_ok response then
        match doc_body response with
        | BodyFails err => inl (caught_content err sorry)
        | BodyText text =>
            match JSON_parse text with
            | None => inl (EngineMessage SyntaxError)
            | Some data => inr data
            end
        end
      else inl (Literal unavailable)
  end.

(** [grows st st' r]: the second state has the chat of the first followed
    by one message of role [r] and at most one message of the assistant;
    the completed subtasks and the current task are the same. *)
Definition grows (st st' : State) (r : Role) : Prop :=
  (exists c now later,
     chatMessages st' = chatMessages st ++ message r c now :: later
     /\ (later = [] \/ exists c' now', later = [message assistant c' now']))
  /\ completedSubtasks st' = completedSubtasks st
  /\ currentTaskIndex st' = currentTaskIndex st.

Section Runtime.

Variable number_to_string : jsstring -> jsstring.
Variable number_truthy : jsstring -> bool.

Abbreviation ToBoolean := (Home.ToBoolean number_truthy).
Abbreviation truthy := (Home.truthy number_truthy).

(** [toggleSubtask] on the state, lines 151-162. *)
Definition toggle (st : State) (taskIndex subtaskIndex : N) : State :=
  setCompletedSubtasks st (toggleSubtask (completedSubtasks st) taskIndex subtaskIndex).

(** [triggerPlanAdjustment], lines 203-233: the state it leaves and
    whether it sent its request.  [now1] and [now2] are the values of
    [Date.now()] at its first and at its second call of
    [addChatMessage]. *)
Definition triggerPlanAdjustment (st : State) (insights : list Content)
           (reply : DocFetch) (now1 now2 : N) : State * bool :=
  if negb (ToBoolean (currentPlan st))
  then (addChatMessage st assistant (Literal no_valid_plan) now1, false)
  else
    match insights with
    | [] => (addChatMessage st assistant (Literal need_feedback) now1, false)
    | _ :: _ =>
        let st1 := addChatMessage st assistant (Literal adjusting) now1 in
        match awaited reply adjust_unavailable adjust_sorry with
        | inl thrown => (addChatMessage st1 assistant thrown now2, true)
        | inr data =>
            match member (js "success") data, member (js "plan") data with
            | Some success, Some plan =>
                if truthy success && truthy plan then
                  match plan with
                  | Some value =>
                      (addChatMessage (setCurrentPlan st1 value) assistant
                                      (Literal plan_updated) now2, true)
                  | None => (st1, true)
                  end
                else
                  match member (js "detail") data with
                  | Some (Some detail) =>
                      if ToBoolean detail then
                        match ToString number_to_string detail with
                        | Some message =>
                            (addChatMessage st1 assistant (Text message) now2, true)
                        | None =>
                            (addChatMessage st1 assistant (EngineMessage TypeError) now2, true)
                        end
                      else (addChatMessage st1 assistant (Literal no_adjusted_plan) now2, true)
                  | _ => (addChatMessage st1 assistant (Literal no_adjusted_plan) now2, true)
                  end
            | _, _ => (addChatMessage st1 assistant (EngineMessage TypeError) now2, true)
            end
        end
    end.

(** [userInsights], line 236. *)
Definition userInsights (st : State) : list Content :=
  map content (filter (fun m => match role m with user => true | assistant => false end)
                      (chatMessages st)).

(** [handleAdjustPlanFromButton], lines 235-242. *)
Definition handleAdjustPlanFromButton (st : State) (reply : DocFetch) (now1 now2 : N)
  : State * bool :=
  match userInsights st with
  | [] => (addChatMessage st assistant (Literal share_first) now1, false)
  | _ :: _ => triggerPlanAdjustment st (userInsights st) reply now1 now2
  end.

(** [handleFeedbackAndAdjust], lines 244-249. *)
Definition handleFeedbackAndAdjust (st : State) (messageContent : Content)
           (isPositive : bool) (reply : DocFetch) (now1 now2 : N) : State * bool :=
  triggerPlanAdjustment st [Feedback isPositive messageContent] reply now1 now2.

(** [currentPlan?.tasks.flatMap(t => t.subtasks) || []], line 258: whether
    the expression has a value.  The chain stops at a plan that is [null];
    on any other plan it calls [flatMap] on the member [tasks], which must
    be an array, and reads [subtasks] of every task, which throws on
    [null]. *)
Definition context_evaluates (plan : JSValue) : bool :=
  match plan with
  | JNull => true
  | JObject props =>
      match lookup (js "tasks") props with
      | Some (JArray ts) =>
          forallb (fun t => match t with JNull => false | _ => true end) ts
      | _ => false
      end
  | _ => false
  end.

(** [handleAskCoach], lines 251-273. *)
Definition handleAskCoach (st : State) (question : jsstring)
           (reply : DocFetch) (now1 now2 : N) : State * bool :=
  let st1 := addChatMessage st user (Text question) now1 in
  if context_evaluates (currentPlan st) then
    match awaited reply coach_unavailable answer_sorry with
    | inl thrown => (addChatMessage st1 assistant thrown now2, true)
    | inr data =>
        match member (js "success") data, member (js "answer") data with
        | Some success, Some answer =>
            if truthy success && truthy answer then
              match answer with
              | Some finalAnswer =>
                  if Nat.ltb 5 (List.length question) then
                    match ToString number_to_string finalAnswer with
                    | Some text => (addChatMessage st1 assistant (Advised text) now2, true)
                    | None =>
                        (addChatMessage st1 assistant (EngineMessage TypeError) now2, true)
                    end
                  else (addChatMessage st1 assistant (Value finalAnswer) now2, true)
              | None => (st1, true)
              end
            else (st1, true)
        | _, _ => (addChatMessage st1 assistant (EngineMessage TypeError) now2, true)
        end
    end
  else (addChatMessage st1 assistant (EngineMessage TypeError) now2, false).

(** [handleElaborateTask], lines 275-294. *)
Definition handleElaborateTask (st : State) (reply : DocFetch) (now1 now2 : N)
  : State * bool :=
  let st1 := addChatMessage st assistant (Literal elaborating) now1 in
  match awaited reply elaborate_unavailable elaborate_sorry with
  | inl thrown => (addChatMessage st1 assistant thrown now2, true)
  | inr data =>
      match member (js "success") data, member (js "elaboration") data with
      | Some success, Some elaboration =>
          if truthy success && truthy elaboration then
            match elaboration with
            | Some value => (addChatMessage st1 assistant (Value value) now2, true)
            | None => (st1, true)
            end
          else (addChatMessage st1 assistant (Literal no_elaboration) now2, true)
      | _, _ => (addChatMessage st1 assistant (EngineMessage TypeError) now2, true)
      end
  end.

(** What the user does on the dashboard, with what the server answers and
    the clock shows. *)
Inductive Event : Type :=
| Click (taskIndex subtaskIndex : N)
| AdjustButton (reply : DocFetch) (now1 now2 : N)
| GiveFeedback (messageContent : Content) (isPositive : bool)
               (reply : DocFetch) (now1 now2 : N)
| Ask (question : jsstring) (reply : DocFetch) (now1 now2 : N)
| Elaborate (reply : DocFetch) (now1 now2 : N).

Definition step (st : State) (ev : Event) : State :=
  match ev with
  | Click i j => toggle st i j
  | AdjustButton reply now1 now2 => fst (handleAdjustPlanFromButton st reply now1 now2)
  | GiveFeedback c p reply now1 now2 => fst (handleFeedbackAndAdjust st c p reply now1 now2)
  | Ask q reply now1 now2 => fst (handleAskCoach st q reply now1 now2)
  | Elaborate reply now1 now2 => fst (handleElaborateTask st reply now1 now2)
  end.

Definition steps (evs : list Event) (st : State) : State := fold_left step evs st.

(** The questions asked in a sequence of events, in their order. *)
Definition asked (evs : list Event) : list jsstring :=
  flat_map (fun ev => match ev with
                      | Ask question _ _ _ => [question]
                      | _ => []
                      end) evs.

End Runtime.

End Chat.

(* ================================================================= *)
(** ** Examples

    In the literals written with [wire], an apostrophe stands for the double
    quote and a dollar sign for the line feed. *)

Example split_example :
  split (wire "$$") (wire "a$$b$$$c$$") = [js "a"; js "b"; wire "$c"; []].
Proof. reflexivity. Qed.

Example trim_example : trim (js "  [DONE] ") = js "[DONE]".
Proof. reflexivity. Qed.

Example JSON_parse_example :
  JSON_parse (wire " {'content':'aA\n', 'n':[1, -2.5e3, null, true]} ")
  = Some (JObject [(js "content", JString [97; 65; 10]%N);
                   (js "n", JArray [JNumber (js "1"); JNumber (js "-2.5e3");
                                    JNull; JBool true])]).
Proof. reflexivity. Qed.

Example JSON_parse_numbers :
  map JSON_parse [js "0"; js "-0"; js "12.50"; js "1E+2"; js "-3e-7"; js " 7 ";
                  js "-"; js "1."; js ".5"; js "+1"; js "1e"; js "1e+"; js "0x10";
                  js "00"; js "-01"; js "1.e3"; js "NaN"]
  = [Some (JNumber (js "0")); Some (JNumber (js "-0")); Some (JNumber (js "12.50"));
     Some (JNumber (js "1E+2")); Some (JNumber (js "-3e-7")); Some (JNumber (js "7"));
     None; None; None; None; None; None; None; None; None; None; None].
Proof. reflexivity. Qed.

Example JSON_parse_rejects :
  map JSON_parse [wire ""; wire "[DONE]"; wire "{'a':1,}"; wire "01"; wire "1 2";
                  wire "'a"; wire "{'content':'{\'ti"; wire "nul"; wire "[1,]"]
  = [None; None; None; None; None; None; None; None; None].
Proof. reflexivity. Qed.

Example spec_example :
  handleStartLearning literal_text
    (streamed [wire "data: {'content':'{\'title\':\'X\','}$$";
               wire "data: {'content':'\'tasks\':[]}'}$$data: [DONE]$$"])
  = (Success (JObject [(js "title", JString (js "X")); (js "tasks", JArray [])]),
     [Read; Read; FinalParse (wire "{'title':'X','tasks':[]}")]).
Proof. reflexivity. Qed.

Example extract_examples :
  map (extract literal_text)
      [wire "data: {'content':'ab'}"; wire "data: [DONE]"; wire "data:[DONE]  ";
       wire "[DONE]"; wire "data: {'content':"; wire "data: null";
       wire "data: {}"; wire "data: {'content':[1,null,[2,3]]}";
       wire "data: {'content':{'toString':1}}"; wire "data: {'content':{}}";
       wire ": ping"; wire ""; wire "data:"; wire " data: [DONE]"]
  = [Fragment (js "ab"); Done; Done; Ignore; Ignore; Ignore;
     Fragment (js "undefined"); Fragment (js "1,,2,3"); Ignore;
     Fragment (js "[object Object]"); Ignore; Ignore; Ignore; Ignore].
Proof. reflexivity. Qed.

Example writer_example :
  data_event (wire "{'title':'X',") = wire "data: {'content':'{\'title\':\'X\','}"
  /\ plan_text {| title := js "X"; tasks := [] |} = wire "{'title':'X','tasks':[]}"
  /\ plan_text {| title := wire "a'b";
                  tasks := [{| description := [9; 100]%N;
                               subtasks := [js "s"; js "t"] |}] |}
     = wire "{'title':'a\'b','tasks':[{'description':'\td','subtasks':['s','t']}]}".
Proof. repeat split; reflexivity. Qed.

(* ================================================================= *)
(** ** Properties of the loops *)

Section Properties.

Variable number_to_string : jsstring -> jsstring.

Abbreviation extract := (extract number_to_string).
Abbreviation for_lines := (for_lines number_to_string).
Abbreviation readLoop := (readLoop number_to_string).
Abbreviation handleStartLearning := (handleStartLearning number_to_string).
Abbreviation outcome := (outcome number_to_string).
Abbreviation events := (events number_to_string).
Abbreviation sentinel_seen := (sentinel_seen number_to_string).

Lemma extract_unprefixed (line : jsstring) :
  startsWith line (js "data:") = false -> extract line = Ignore.
Proof. intros H. unfold extract. now rewrite H. Qed.

Lemma extract_sentinel (line : jsstring) :
  startsWith line (js "data:") = true ->
  JsString.eqb (dataContent line) (js "[DONE]") = true ->
  extract line = Done.
Proof. intros H1 H2. unfold extract. rewrite H1. now rewrite H2. Qed.

Lemma extract_unparsable (line : jsstring) :
  JsString.eqb (dataContent line) (js "[DONE]") = false ->
  JSON_parse (dataContent line) = None ->
  extract line = Ignore.
Proof.
  intros H1 H2. unfold extract.
  rewrite H1, H2. now destruct (startsWith line (js "data:")).
Qed.

Lemma for_lines_app (lines1 lines2 : list jsstring) (acc : jsstring) :
  for_lines (lines1 ++ lines2) acc =
    (let (acc1, broke) := for_lines lines1 acc in
     if broke then (acc1, true) else for_lines lines2 acc1).
Proof.
  revert acc. induction lines1 as [| line lines1 IH]; intros acc; simpl.
  - reflexivity.
  - destruct (extract line); auto.
Qed.

Lemma for_lines_ignore (line : jsstring) (rest : list jsstring) (acc : jsstring) :
  extract line = Ignore -> for_lines (line :: rest) acc = for_lines rest acc.
Proof. intros H. simpl. now rewrite H. Qed.

Lemma for_lines_done (line : jsstring) (rest : list jsstring) (acc : jsstring) :
  extract line = Done -> for_lines (line :: rest) acc = (acc, true).
Proof. intros H. simpl. now rewrite H. Qed.

Lemma for_lines_fragment (line content : jsstring) (rest : list jsstring) (acc : jsstring) :
  extract line = Fragment content ->
  for_lines (line :: rest) acc = for_lines rest (acc ++ content).
Proof. intros H. simpl. now rewrite H. Qed.

Lemma frames_cons (value : jsstring) (chunks : list jsstring) :
  frames (value :: chunks) = split delimiter value ++ frames chunks.
Proof. reflexivity. Qed.

Lemma readLoop_chunk (value : jsstring) (reader : list ReadResult) (acc : jsstring) :
  readLoop (Chunk value :: reader) acc =
    match for_lines (split delimiter value) acc with
    | (acc1, true) => (Exited acc1, [Read])
    | (acc1, false) =>
        let (exit, evs) := readLoop reader acc1 in (exit, Read :: evs)
    end.
Proof. reflexivity. Qed.

(** Chunks that are read one after the other behave as one [for] loop over
    all their frames, followed by the rest of the stream. *)
Lemma readLoop_chunks (chunks : list jsstring) (tail : list ReadResult) (acc : jsstring) :
  fst (readLoop (map Chunk chunks ++ tail) acc) =
    (let (acc1, broke) := for_lines (frames chunks) acc in
     if broke then Exited acc1 else fst (readLoop tail acc1)).
Proof.
  revert acc. induction chunks as [| value chunks IH]; intros acc.
  - simpl. reflexivity.
  - rewrite frames_cons, for_lines_app.
    cbn [map app]. rewrite readLoop_chunk.
    destruct (for_lines (split delimiter value) acc) as [acc1 [|]]; [reflexivity|].
    specialize (IH acc1).
    destruct (readLoop (map Chunk chunks ++ tail) acc1) as [exit evs].
    exact IH.
Qed.

Lemma readLoop_reads_chunks (chunks : list jsstring) (acc : jsstring) :
  snd (for_lines (frames chunks) acc) = false ->
  snd (readLoop (map Chunk chunks) acc) = repeat Read (S (List.length chunks)).
Proof.
  revert acc. induction chunks as [| value chunks IH]; intros acc H.
  - reflexivity.
  - rewrite frames_cons, for_lines_app in H. cbn [map]. rewrite readLoop_chunk.
    destruct (for_lines (split delimiter value) acc) as [acc1 [|]]; [discriminate|].
    specialize (IH acc1 H).
    destruct (readLoop (map Chunk chunks) acc1) as [exit evs].
    simpl in *. now rewrite IH.
Qed.

Lemma for_lines_no_sentinel (lines : list jsstring) (acc : jsstring) :
  sentinel_seen lines = false ->
  snd (for_lines lines acc) = false.
Proof.
  revert acc. induction lines as [| line lines IH]; intros acc H; simpl.
  - reflexivity.
  - unfold sentinel_seen in H. simpl in H. apply orb_false_elim in H as [Hl H].
    destruct (extract line); try discriminate; now apply IH.
Qed.

Lemma readLoop_closed (chunks : list jsstring) (acc : jsstring) :
  sentinel_seen (frames chunks) = false ->
  readLoop (map Chunk chunks) acc =
    (Exited (fst (for_lines (frames chunks) acc)), repeat Read (S (List.length chunks))).
Proof.
  intros H. apply for_lines_no_sentinel with (acc := acc) in H.
  pose proof (readLoop_chunks chunks [] acc) as Hfst.
  pose proof (readLoop_reads_chunks chunks acc H) as Hsnd.
  rewrite app_nil_r in Hfst.
  destruct (readLoop (map Chunk chunks) acc) as [exit evs].
  destruct (for_lines (frames chunks) acc) as [acc1 broke].
  simpl in *. subst. reflexivity.
Qed.

Lemma final_parse_not_transport (acc : jsstring) (reason : ErrorMessage) :
  fst (final_parse acc) <> TransportFailure reason.
Proof.
  unfold final_parse. destruct acc; [discriminate|].
  destruct (JSON_parse _); discriminate.
Qed.

Lemma dropWhile_all (p : code_unit -> bool) (s : jsstring) :
  forallb p s = true -> dropWhile p s = [].
Proof.
  induction s as [| c s IH]; simpl; [reflexivity|].
  intros H. apply andb_prop in H as [Hc Hs]. rewrite Hc. auto.
Qed.

Lemma trim_whitespace (ws : jsstring) :
  forallb isWhiteSpace ws = true -> trim ws = [].
Proof.
  intros H. unfold trim, trimEnd, trimStart. now rewrite (dropWhile_all _ _ H).
Qed.

(* ================================================================= *)
(** ** The claims *)

(** C4 (sentinel precedence).  When the frames of a chunk contain a
    [[DONE]] frame, the buffer the loop leaves is the one the frames before
    it produce: the loop exits at the sentinel whatever frames follow it in
    the chunk, and the read loop ends with that single read, whatever the
    stream holds after the chunk. *)
Theorem sentinel_precedence
  (value : jsstring) (before after : list jsstring) (d : jsstring)
  (rest : list ReadResult) (acc : jsstring) :
  split delimiter value = before ++ d :: after ->
  extract d = Done ->
  for_lines (before ++ d :: after) acc = (fst (for_lines before acc), true)
  /\ readLoop (Chunk value :: rest) acc = (Exited (fst (for_lines before acc)), [Read]).
Proof.
  intros Hsplit Hd.
  assert (H : for_lines (before ++ d :: after) acc = (fst (for_lines before acc), true)).
  { rewrite for_lines_app. destruct (for_lines before acc) as [acc1 [|]]; simpl.
    - reflexivity.
    - now rewrite Hd. }
  split; [exact H|].
  rewrite readLoop_chunk, Hsplit, H. reflexivity.
Qed.

(** C5 (implicit termination).  When the response is accepted, every read
    delivers a chunk and no frame is the sentinel, the stream is read to its
    end (one read per chunk and the read that reports the end) and the
    handler goes on to the final step on the buffer all the frames produced.
    On a buffer that is not empty the next and last call is
    [JSON.parse] on that very buffer, and the outcome is what the parse
    gives: the parsed value as the plan, or the parse failure with the
    buffer.  On the empty buffer the outcome is the parse failure and no
    parse is made.  In no case is the outcome a transport failure. *)
Theorem close_is_implicit_termination
  (response : Response) (chunks : list jsstring) :
  ok response = true ->
  body response = Some (map Chunk chunks) ->
  sentinel_seen (frames chunks) = false ->
  let buffer := fst (for_lines (frames chunks) []) in
  let reads := repeat Read (S (List.length chunks)) in
  handleStartLearning (Resolved response)
    = (fst (final_parse buffer), reads ++ snd (final_parse buffer))
  /\ (forall reason, outcome (Resolved response) <> TransportFailure reason)
  /\ handleStartLearning (Resolved response)
     = match buffer with
       | [] => (ParseFailure [], reads)
       | _ :: _ =>
           (match JSON_parse buffer with
            | Some finalPlan => Success finalPlan
            | None => ParseFailure buffer
            end,
            reads ++ [FinalParse buffer])
       end.
Proof.
  intros Hok Hbody Hframes buffer reads.
  assert (H : handleStartLearning (Resolved response)
              = (fst (final_parse buffer), reads ++ snd (final_parse buffer))).
  { unfold Page.handleStartLearning. rewrite Hok, Hbody.
    rewrite (readLoop_closed chunks [] Hframes). fold buffer. fold reads.
    now destruct (final_parse buffer). }
  split; [exact H|]. split.
  - intros reason. unfold Page.outcome. rewrite H. apply final_parse_not_transport.
  - rewrite H. unfold Page.final_parse.
    destruct buffer as [| c buffer']; [now rewrite app_nil_r|].
    now destruct (JSON_parse (c :: buffer')).
Qed.

(** C6 (empty-stream failure).  When the read loop ends, by the sentinel or
    by the end of the stream, with an empty buffer, the handler reports a
    parse failure: no plan is set and [JSON.parse] is not even called. *)
Theorem empty_stream_failure
  (response : Response) (reader : list ReadResult) (reads : list Event) :
  ok response = true ->
  body response = Some reader ->
  readLoop reader [] = (Exited [], reads) ->
  handleStartLearning (Resolved response) = (ParseFailure [], reads)
  /\ forall finalPlan, outcome (Resolved response) <> Success finalPlan.
Proof.
  intros Hok Hbody Hloop.
  assert (H : handleStartLearning (Resolved response) = (ParseFailure [], reads)).
  { unfold Page.handleStartLearning. rewrite Hok, Hbody, Hloop. simpl.
    now rewrite app_nil_r. }
  split; [exact H|].
  intros finalPlan. unfold Page.outcome. rewrite H. discriminate.
Qed.

(** C7 (rejected response).  A response whose status is outside 200-299 ends
    the handler with a transport failure carrying that status, with no call
    at all on the stream or on the parser. *)
Theorem non_success_status_fails_at_once (response : Response) :
  ok response = false ->
  handleStartLearning (Resolved response)
    = (TransportFailure (RequestFailed (status response)), []).
Proof.
  intros Hok. unfold Page.handleStartLearning. now rewrite Hok.
Qed.

(** C9 (unprefixed sentinel).  A frame whose trimmed text is [[DONE]] but
    which does not start with [data:] is ignored: the [for] loop goes on
    with the frames after it and the same buffer, and a chunk made of this
    frame alone is followed by the next read. *)
Theorem unprefixed_sentinel_ignored
  (line : jsstring) (rest : list jsstring) (acc : jsstring) :
  trim line = js "[DONE]" ->
  startsWith line (js "data:") = false ->
  extract line = Ignore
  /\ for_lines (line :: rest) acc = for_lines rest acc
  /\ forall value reader,
       split delimiter value = [line] ->
       readLoop (Chunk value :: reader) acc
       = (let (exit, evs) := readLoop reader acc in (exit, Read :: evs)).
Proof.
  intros _ Hprefix.
  pose proof (extract_unprefixed line Hprefix) as H.
  split; [exact H|]. split.
  - now apply for_lines_ignore.
  - intros value reader Hsplit.
    rewrite readLoop_chunk, Hsplit, (for_lines_ignore line [] acc H). reflexivity.
Qed.

(** C10 (empty payload).  A frame made of the prefix [data:] and white space
    only has the empty payload, which is not the sentinel and which
    [JSON.parse] rejects: the frame is ignored, the loop goes on with the
    same buffer. *)
Theorem blank_payload_ignored
  (ws : jsstring) (rest : list jsstring) (acc : jsstring) :
  forallb isWhiteSpace ws = true ->
  dataContent (js "data:" ++ ws) = []
  /\ extract (js "data:" ++ ws) = Ignore
  /\ for_lines ((js "data:" ++ ws) :: rest) acc = for_lines rest acc.
Proof.
  intros Hws.
  assert (Hp : dataContent (js "data:" ++ ws) = []).
  { unfold dataContent. change (substring 5 (js "data:" ++ ws)) with ws.
    now apply trim_whitespace. }
  assert (H : extract (js "data:" ++ ws) = Ignore).
  { apply extract_unparsable; rewrite Hp; reflexivity. }
  split; [exact Hp|]. split; [exact H|].
  now apply for_lines_ignore.
Qed.

Lemma malformed_ignored (line : jsstring) :
  malformed line = true -> extract line = Ignore.
Proof.
  unfold malformed. intros H. apply orb_prop in H as [H | H].
  - apply extract_unprefixed. now destruct (startsWith line (js "data:")).
  - apply andb_prop in H as [H1 H2]. apply extract_unparsable.
    + now destruct (JsString.eqb (dataContent line) (js "[DONE]")).
    + now destruct (JSON_parse (dataContent line)).
Qed.

Lemma for_lines_well_formed (lines : list jsstring) (acc : jsstring) :
  for_lines (filter well_formed lines) acc = for_lines lines acc.
Proof.
  revert acc. induction lines as [| line lines IH]; intros acc; [reflexivity|].
  cbn [filter]. unfold well_formed at 1.
  destruct (malformed line) eqn:Hm; cbn [negb].
  - rewrite (for_lines_ignore line lines acc (malformed_ignored line Hm)). apply IH.
  - simpl. destruct (extract line); auto.
Qed.

Lemma outcome_accepted (response : Response) (reader : list ReadResult) :
  ok response = true ->
  body response = Some reader ->
  outcome (Resolved response) = conclude (fst (readLoop reader [])).
Proof.
  intros Hok Hbody. unfold Page.outcome, Page.handleStartLearning.
  rewrite Hok, Hbody.
  destruct (readLoop reader []) as [[acc | err] reads]; simpl.
  - now destruct (final_parse acc).
  - reflexivity.
Qed.

(** Inserting a malformed frame anywhere among the frames leaves the
    well-formed ones as they were. *)
Lemma well_formed_insert (before after : list jsstring) (line : jsstring) :
  malformed line = true ->
  filter well_formed (before ++ line :: after) = filter well_formed (before ++ after).
Proof.
  intros H. rewrite !filter_app. cbn [filter]. unfold well_formed at 2.
  now rewrite H.
Qed.

(** C8 (malformed-frame resilience).  Two accepted streams whose chunks hold
    the same frames once the malformed ones are taken out, followed by the
    same rest, end in the same outcome: frames without the [data:] prefix
    and frames whose payload [JSON.parse] rejects may be inserted anywhere
    in the chunks.  Each of them is classified [Ignore] and leaves the
    buffer and the loop as they were. *)
Theorem malformed_frame_resilience
  (response response' : Response) (chunks chunks' : list jsstring)
  (tail : list ReadResult) :
  ok response = true ->
  ok response' = true ->
  body response = Some (map Chunk chunks ++ tail) ->
  body response' = Some (map Chunk chunks' ++ tail) ->
  filter well_formed (frames chunks) = filter well_formed (frames chunks') ->
  outcome (Resolved response) = outcome (Resolved response')
  /\ forall line, malformed line = true ->
       extract line = Ignore
       /\ forall rest acc, for_lines (line :: rest) acc = for_lines rest acc.
Proof.
  intros Hok Hok' Hbody Hbody' Hframes. split.
  - rewrite (outcome_accepted response _ Hok Hbody).
    rewrite (outcome_accepted response' _ Hok' Hbody').
    rewrite !readLoop_chunks.
    rewrite <- (for_lines_well_formed (frames chunks)).
    rewrite <- (for_lines_well_formed (frames chunks')).
    now rewrite Hframes.
  - intros line Hm. pose proof (malformed_ignored line Hm) as H.
    split; [exact H|]. intros rest acc. now apply for_lines_ignore.
Qed.

Lemma jsstring_eqb_eq (s t : jsstring) : JsString.eqb s t = true <-> s = t.
Proof.
  revert t. induction s as [| c s IH]; intros [| d t]; simpl; split;
    try discriminate; try reflexivity.
  - intros H. apply andb_prop in H as [H1 H2].
    apply N.eqb_eq in H1. apply IH in H2. now subst.
  - intros H. injection H as -> ->. rewrite N.eqb_refl. now apply IH.
Qed.

(** C3 (absent content).  A [data:] frame whose payload parses as an object
    without a [content] member contributes the text [undefined]: the
    property read yields [undefined], and the concatenation of line 61
    writes it out.  The buffer grows by these nine code units. *)
Theorem absent_content_appends_undefined
  (line : jsstring) (props : list (jsstring * JSValue))
  (rest : list jsstring) (acc : jsstring) :
  startsWith line (js "data:") = true ->
  JSON_parse (dataContent line) = Some (JObject props) ->
  lookup (js "content") props = None ->
  extract line = Fragment (js "undefined")
  /\ for_lines (line :: rest) acc = for_lines rest (acc ++ js "undefined")
  /\ acc ++ js "undefined" <> acc.
Proof.
  intros Hprefix Hparse Hlookup.
  assert (H : extract line = Fragment (js "undefined")).
  { unfold Page.extract. rewrite Hprefix.
    destruct (JsString.eqb (dataContent line) (js "[DONE]")) eqn:Hd.
    - apply jsstring_eqb_eq in Hd. rewrite Hd in Hparse. discriminate.
    - rewrite Hparse. simpl. now rewrite Hlookup. }
  split; [exact H|]. split.
  - now apply for_lines_fragment.
  - intros Heq. apply (f_equal (@List.length code_unit)) in Heq.
    rewrite length_app in Heq. simpl in Heq. lia.
Qed.

(** C2, as the handler has it.  After an accepted stream the handler sets
    the plan exactly when the buffer is not empty and [JSON.parse] accepts
    it, and the plan is the parsed value, whatever its shape; in every other
    case it reports a parse failure that carries the whole buffer. *)
Theorem success_iff_buffer_parses
  (response : Response) (reader : list ReadResult)
  (acc : jsstring) (reads : list Event) :
  ok response = true ->
  body response = Some reader ->
  readLoop reader [] = (Exited acc, reads) ->
  (forall finalPlan,
     outcome (Resolved response) = Success finalPlan
     <-> acc <> [] /\ JSON_parse acc = Some finalPlan)
  /\ (acc = [] \/ JSON_parse acc = None ->
      outcome (Resolved response) = ParseFailure acc).
Proof.
  intros Hok Hbody Hloop.
  rewrite (outcome_accepted response reader Hok Hbody), Hloop.
  unfold conclude, final_parse. cbn [fst]. split.
  - intros finalPlan. destruct acc as [| c acc].
    + split; [discriminate | intros [H _]; now elim H].
    + destruct (JSON_parse (c :: acc)) as [v |]; cbn [fst]; split.
      * intros H. injection H as ->. split; [discriminate | reflexivity].
      * intros [_ H]. now injection H as ->.
      * discriminate.
      * intros [_ H]. discriminate.
  - intros [-> | H]; [reflexivity|].
    destruct acc; [reflexivity|]. now rewrite H.
Qed.

(** *** Splitting a chunk of whole events *)

Lemma split_frame (text rest : jsstring) :
  one_line text = true ->
  split delimiter (text ++ delimiter ++ rest) = text :: split delimiter rest.
Proof.
  intros H. unfold split, delimiter.
  induction text as [| c text IH].
  - simpl. reflexivity.
  - simpl in H. apply andb_prop in H as [Hc Ht].
    cbn [app]. cbn [split_from startsWith].
    destruct (N.eqb c 10); [discriminate|]. cbn [andb].
    cbn [app] in IH. rewrite (IH Ht). reflexivity.
Qed.

Lemma split_one_line (text : jsstring) :
  one_line text = true -> split delimiter text = [text].
Proof.
  intros H. unfold split, delimiter.
  induction text as [| c text IH]; [reflexivity|].
  simpl in H. apply andb_prop in H as [Hc Ht].
  cbn [split_from startsWith].
  destruct (N.eqb c 10); [discriminate|]. cbn [andb].
  now rewrite (IH Ht).
Qed.

Lemma framed_one_line (w : WireFrame) :
  framed w = true -> one_line (frame_text w) = true.
Proof.
  destruct w as [text content | text]; cbn [framed frame_text]; intros H;
    apply andb_prop in H as [H _]; now apply andb_prop in H as [_ H].
Qed.

Lemma split_chunk_of (group : list WireFrame) (partial : jsstring) :
  forallb framed group = true ->
  split delimiter (chunk_of group ++ partial)
  = map frame_text group ++ split delimiter partial.
Proof.
  induction group as [| w group IH]; intros H.
  - reflexivity.
  - simpl in H. apply andb_prop in H as [Hw Hg].
    unfold chunk_of. cbn [map List.concat]. rewrite <- !app_assoc.
    rewrite split_frame by now apply framed_one_line.
    cbn [app]. f_equal. now apply IH.
Qed.

Lemma extract_framed (w : WireFrame) :
  framed w = true ->
  extract (frame_text w)
  = match w with
    | DataFrame _ content => Fragment content
    | SentinelFrame _ => Done
    end.
Proof.
  destruct w as [text content | text]; cbn [framed frame_text]; intros H;
    apply andb_prop in H as [H Hp]; apply andb_prop in H as [Hprefix _].
  - unfold Page.extract. rewrite Hprefix.
    destruct (JSON_parse (dataContent text)) as [[| | | | | props] |] eqn:Hparse;
      try discriminate.
    destruct (JsString.eqb (dataContent text) (js "[DONE]")) eqn:Hd.
    { apply jsstring_eqb_eq in Hd. rewrite Hd in Hparse. discriminate. }
    simpl. destruct (lookup (js "content") props) as [[| | | c | |] |]; try discriminate.
    apply jsstring_eqb_eq in Hp. now subst.
  - now apply extract_sentinel.
Qed.

Lemma for_lines_group (group : list WireFrame) (lines : list jsstring) (acc : jsstring) :
  forallb framed group = true ->
  for_lines (map frame_text group ++ lines) acc
  = if existsb is_sentinel group then (acc ++ carried group, true)
    else for_lines lines (acc ++ carried group).
Proof.
  revert acc. induction group as [| w group IH]; intros acc H.
  - simpl. now rewrite app_nil_r.
  - simpl in H. apply andb_prop in H as [Hw Hg].
    cbn [map app]. pose proof (extract_framed w Hw) as He.
    destruct w as [text content | text]; cbn [frame_text] in *.
    + rewrite (for_lines_fragment _ content _ _ He), (IH _ Hg).
      cbn [existsb is_sentinel orb carried]. now rewrite app_assoc.
    + rewrite (for_lines_done _ _ _ He). simpl. now rewrite app_nil_r.
Qed.

Lemma carried_app (ws1 ws2 : list WireFrame) :
  carried (ws1 ++ ws2)
  = if existsb is_sentinel ws1 then carried ws1 else carried ws1 ++ carried ws2.
Proof.
  induction ws1 as [| [text content | text] ws1 IH]; simpl; try reflexivity.
  rewrite IH. destruct (existsb is_sentinel ws1); [reflexivity|]. now rewrite app_assoc.
Qed.

Lemma for_lines_groups (groups : list (list WireFrame)) (acc : jsstring) :
  forallb framed (List.concat groups) = true ->
  fst (for_lines (frames (map chunk_of groups)) acc)
  = acc ++ carried (List.concat groups).
Proof.
  revert acc. induction groups as [| group groups IH]; intros acc H.
  - simpl. now rewrite app_nil_r.
  - cbn [List.concat] in H. rewrite forallb_app in H. apply andb_prop in H as [Hg Hgs].
    cbn [map List.concat]. rewrite frames_cons.
    rewrite <- (app_nil_r (chunk_of group)), (split_chunk_of _ _ Hg).
    rewrite <- app_assoc, (for_lines_group _ _ _ Hg), carried_app.
    destruct (existsb is_sentinel group); [reflexivity|].
    change (split delimiter [] ++ frames (map chunk_of groups))
      with ([] :: frames (map chunk_of groups)).
    rewrite for_lines_ignore by reflexivity.
    rewrite (IH _ Hgs). now rewrite app_assoc.
Qed.

Lemma outcome_of_whole_events (response : Response) (groups : list (list WireFrame)) :
  ok response = true ->
  body response = Some (map Chunk (map chunk_of groups)) ->
  forallb framed (List.concat groups) = true ->
  outcome (Resolved response) = fst (final_parse (carried (List.concat groups))).
Proof.
  intros Hok Hbody Hframed.
  rewrite (outcome_accepted response _ Hok Hbody).
  rewrite <- (app_nil_r (map Chunk (map chunk_of groups))), readLoop_chunks.
  pose proof (for_lines_groups groups [] Hframed) as Hb.
  destruct (for_lines (frames (map chunk_of groups)) []) as [acc1 broke].
  simpl in Hb. subst acc1. now destruct broke.
Qed.

Lemma final_parse_document (buffer : jsstring) (document : JSValue) :
  buffer <> [] -> JSON_parse buffer = Some document ->
  fst (final_parse buffer) = Success document.
Proof.
  intros Hne Hparse. unfold final_parse.
  destruct buffer; [now elim Hne|]. now rewrite Hparse.
Qed.

End Properties.

(* ================================================================= *)
(** ** The fuel of the parser is enough *)

Section Fuel.

Local Open Scope nat_scope.

Lemma parse_value_eq (fuel : nat) (s : jsstring) :
  parse_value (S fuel) s =
    match skip_ws s with
    | [] => None
    | c :: rest =>
        if N.eqb c 110 then expect (js "ull") rest JNull
        else if N.eqb c 116 then expect (js "rue") rest (JBool true)
        else if N.eqb c 102 then expect (js "alse") rest (JBool false)
        else if N.eqb c 34 then
          match parse_string_body rest with
          | Some (str, rest') => Some (JString str, rest')
          | None => None
          end
        else if N.eqb c 91 then
          match skip_ws rest with
          | d :: rest' =>
              if N.eqb d 93 then Some (JArray [], rest')
              else match parse_elements fuel rest with
                   | Some (vs, rest'') => Some (JArray vs, rest'')
                   | None => None
                   end
          | [] => None
          end
        else if N.eqb c 123 then
          match skip_ws rest with
          | d :: rest' =>
              if N.eqb d 125 then Some (JObject [], rest')
              else match parse_members fuel rest with
                   | Some (ms, rest'') => Some (JObject ms, rest'')
                   | None => None
                   end
          | [] => None
          end
        else if (N.eqb c 45 || isDigit c)%bool then
          match parse_number (c :: rest) with
          | Some (lit, rest') => Some (JNumber lit, rest')
          | None => None
          end
        else None
    end.
Proof. reflexivity. Qed.

Lemma parse_elements_eq (fuel : nat) (s : jsstring) :
  parse_elements (S fuel) s =
    match parse_value fuel s with
    | Some (v, s1) =>
        match skip_ws s1 with
        | c :: s2 =>
            if N.eqb c 44 then
              match parse_elements fuel s2 with
              | Some (vs, s3) => Some (v :: vs, s3)
              | None => None
              end
            else if N.eqb c 93 then Some ([v], s2)
            else None
        | [] => None
        end
    | None => None
    end.
Proof. reflexivity. Qed.

Lemma parse_members_eq (fuel : nat) (s : jsstring) :
  parse_members (S fuel) s =
    match skip_ws s with
    | q :: s0 =>
        if N.eqb q 34 then
          match parse_string_body s0 with
          | Some (key, s1) =>
              match skip_ws s1 with
              | c :: s2 =>
                  if N.eqb c 58 then
                    match parse_value fuel s2 with
                    | Some (v, s3) =>
                        match skip_ws s3 with
                        | d :: s4 =>
                            if N.eqb d 44 then
                              match parse_members fuel s4 with
                              | Some (ms, s5) => Some ((key, v) :: ms, s5)
                              | None => None
                              end
                            else if N.eqb d 125 then Some ([(key, v)], s4)
                            else None
                        | [] => None
                        end
                    | None => None
                    end
                  else None
              | [] => None
              end
          | None => None
          end
        else None
    | [] => None
    end.
Proof. reflexivity. Qed.

Lemma skip_ws_length (s : jsstring) : List.length (skip_ws s) <= List.length s.
Proof.
  unfold skip_ws. induction s as [| c s IH]; simpl; [lia|].
  destruct (isJsonSpace c); simpl; lia.
Qed.

Lemma push_unit_some (u : code_unit) (r : option (jsstring * jsstring))
      (str rest : jsstring) :
  push_unit u r = Some (str, rest) ->
  exists str', r = Some (str', rest) /\ str = u :: str'.
Proof.
  destruct r as [[str' rest'] |]; simpl; [| discriminate].
  intros H. injection H as <- <-. now exists str'.
Qed.

Lemma parse_string_body_length (s str rest : jsstring) :
  parse_string_body s = Some (str, rest) -> List.length rest < List.length s.
Proof.
  remember (List.length s) as n eqn:Hn.
  assert (Hle : List.length s <= n) by lia. clear Hn.
  revert s str rest Hle.
  induction n as [| n IH]; intros s str rest Hle H.
  - destruct s; [discriminate | simpl in Hle; lia].
  - destruct s as [| c s]; [discriminate|].
    cbn [parse_string_body] in H. simpl in Hle.
    destruct (N.eqb c 34).
    { injection H as <- <-. simpl. lia. }
    destruct (N.eqb c 92).
    + destruct s as [| e s]; [discriminate|].
      destruct (N.eqb e 117).
      * destruct s as [| h1 [| h2 [| h3 [| h4 s]]]]; try discriminate.
        destruct (hex4 h1 h2 h3 h4); [| discriminate].
        apply push_unit_some in H as [str' [H _]].
        apply IH in H; simpl in *; lia.
      * destruct (unescape e); [| discriminate].
        apply push_unit_some in H as [str' [H _]].
        apply IH in H; simpl in *; lia.
    + destruct (N.ltb c 32); [discriminate|].
      apply push_unit_some in H as [str' [H _]].
      apply IH in H; simpl in *; lia.
Qed.

Lemma span_digits_length (s ds rest : jsstring) :
  span_digits s = (ds, rest) -> List.length s = List.length ds + List.length rest.
Proof.
  revert ds rest. induction s as [| c s IH]; intros ds rest H; simpl in H.
  - injection H as <- <-. reflexivity.
  - destruct (isDigit c).
    + destruct (span_digits s) as [ds' rest'] eqn:E.
      injection H as <- <-. simpl. now rewrite (IH ds' rest' eq_refl).
    + injection H as <- <-. reflexivity.
Qed.

Lemma number_fraction_length (s fr rest : jsstring) :
  number_fraction s = Some (fr, rest) -> List.length rest <= List.length s.
Proof.
  unfold number_fraction. destruct s as [| c s].
  - intros H. injection H as <- <-. lia.
  - destruct (N.eqb c 46).
    + destruct (span_digits s) as [ds r] eqn:E. apply span_digits_length in E.
      destruct ds; [discriminate|]. intros H. injection H as <- <-. simpl in *. lia.
    + intros H. injection H as <- <-. lia.
Qed.

Lemma number_exponent_length (s ex rest : jsstring) :
  number_exponent s = Some (ex, rest) -> List.length rest <= List.length s.
Proof.
  unfold number_exponent. destruct s as [| c s].
  - intros H. injection H as <- <-. lia.
  - destruct (N.eqb c 101 || N.eqb c 69)%bool.
    + destruct s as [| g s].
      * simpl. discriminate.
      * destruct (N.eqb g 43 || N.eqb g 45)%bool.
        -- destruct (span_digits s) as [ds r] eqn:E. apply span_digits_length in E.
           destruct ds; [discriminate|]. intros H. injection H as <- <-. simpl in *. lia.
        -- destruct (span_digits (g :: s)) as [ds r] eqn:E. apply span_digits_length in E.
           destruct ds; [discriminate|]. intros H. injection H as <- <-. simpl in *. lia.
    + intros H. injection H as <- <-. lia.
Qed.

Lemma parse_number_length (s lit rest : jsstring) :
  parse_number s = Some (lit, rest) -> List.length rest < List.length s.
Proof.
  unfold parse_number.
  destruct (number_sign s) as [sign s1] eqn:Es.
  assert (Hs : List.length s1 <= List.length s).
  { unfold number_sign in Es. destruct s as [| c s].
    - injection Es as <- <-. lia.
    - destruct (N.eqb c 45); injection Es as <- <-; simpl; lia. }
  destruct (span_digits s1) as [int s2] eqn:Ei. apply span_digits_length in Ei.
  destruct int as [| d more]; [discriminate|].
  destruct (_ && _)%bool; [discriminate|].
  destruct (number_fraction s2) as [[fr s3] |] eqn:Ef; [| discriminate].
  apply number_fraction_length in Ef.
  destruct (number_exponent s3) as [[ex s4] |] eqn:Ee; [| discriminate].
  apply number_exponent_length in Ee.
  intros H. injection H as <- <-. simpl in *. lia.
Qed.

Lemma expect_length (word rest : jsstring) (v v' : JSValue) (r : jsstring) :
  expect word rest v = Some (v', r) -> List.length r <= List.length rest.
Proof.
  unfold expect. destruct (startsWith rest word); [| discriminate].
  intros H. injection H as <- <-. rewrite length_skipn. lia.
Qed.

(** Facts on lengths that the proofs below collect before they call
    [lia]. *)
Ltac lengths :=
  repeat match goal with
         | H : skip_ws ?s = _ |- _ =>
             let L := fresh "L" in
             pose proof (skip_ws_length s) as L; rewrite H in L; clear H
         | H : parse_string_body _ = Some _ |- _ => apply parse_string_body_length in H
         | H : parse_number _ = Some _ |- _ => apply parse_number_length in H
         | H : expect _ _ _ = Some _ |- _ => apply expect_length in H
         end;
  cbn [List.length] in *.

Ltac split_matches H :=
  repeat match type of H with
         | context [match ?x with _ => _ end] => destruct x eqn:?; try discriminate H
         end.

(** Every successful call consumes text. *)
Lemma parse_progress (fuel : nat) :
  (forall s v r, parse_value fuel s = Some (v, r) -> List.length r < List.length s)
  /\ (forall s vs r, parse_elements fuel s = Some (vs, r) -> List.length r < List.length s)
  /\ (forall s ms r, parse_members fuel s = Some (ms, r) -> List.length r < List.length s).
Proof.
  induction fuel as [| fuel [IHv [IHe IHm]]].
  - repeat split; intros; discriminate.
  - repeat split.
    + intros s v r H. rewrite parse_value_eq in H. split_matches H;
        try (injection H as <- <-);
        repeat match goal with
               | E : parse_elements fuel _ = Some _ |- _ => apply IHe in E
               | E : parse_members fuel _ = Some _ |- _ => apply IHm in E
               end;
        lengths; lia.
    + intros s vs r H. rewrite parse_elements_eq in H. split_matches H;
        try (injection H as <- <-);
        repeat match goal with
               | E : parse_value fuel _ = Some _ |- _ => apply IHv in E
               | E : parse_elements fuel _ = Some _ |- _ => apply IHe in E
               end;
        lengths; lia.
    + intros s ms r H. rewrite parse_members_eq in H. split_matches H;
        try (injection H as <- <-);
        repeat match goal with
               | E : parse_value fuel _ = Some _ |- _ => apply IHv in E
               | E : parse_members fuel _ = Some _ |- _ => apply IHm in E
               end;
        lengths; lia.
Qed.

Ltac progress_facts :=
  repeat match goal with
         | H : parse_value ?f _ = Some (_, _) |- _ =>
             apply (proj1 (parse_progress f)) in H
         | H : parse_elements ?f _ = Some (_, _) |- _ =>
             apply (proj1 (proj2 (parse_progress f))) in H
         | H : parse_members ?f _ = Some (_, _) |- _ =>
             apply (proj2 (proj2 (parse_progress f))) in H
         end.

(** A call that succeeds with some fuel succeeds, with the same result,
    with any fuel above twice the length of its text. *)
Lemma fuel_enough (fuel : nat) :
  (forall s r, parse_value fuel s = Some r ->
     forall fuel', 2 * List.length s + 1 <= fuel' -> parse_value fuel' s = Some r)
  /\ (forall s r, parse_elements fuel s = Some r ->
     forall fuel', 2 * List.length s + 2 <= fuel' -> parse_elements fuel' s = Some r)
  /\ (forall s r, parse_members fuel s = Some r ->
     forall fuel', 2 * List.length s + 2 <= fuel' -> parse_members fuel' s = Some r).
Proof.
  induction fuel as [| fuel [IHv [IHe IHm]]].
  - repeat split; intros; discriminate.
  - repeat split.
    + intros s r H [| fuel'] Hf; [lia|].
      rewrite parse_value_eq in H |- *. split_matches H; try exact H.
      * match goal with
        | E : parse_elements fuel ?t = Some ?p |- _ =>
            rewrite (IHe t p E fuel') by (lengths; lia)
        end.
        exact H.
      * match goal with
        | E : parse_members fuel ?t = Some ?p |- _ =>
            rewrite (IHm t p E fuel') by (lengths; lia)
        end.
        exact H.
    + intros s r H [| fuel'] Hf; [lia|].
      rewrite parse_elements_eq in H |- *.
      destruct (parse_value fuel s) as [[v s1] |] eqn:Ev; [| discriminate].
      rewrite (IHv s (v, s1) Ev fuel') by lia.
      destruct (skip_ws s1) as [| c s2] eqn:Ew; [discriminate|].
      destruct (N.eqb c 44); [| exact H].
      destruct (parse_elements fuel s2) as [p |] eqn:Ee; [| discriminate].
      rewrite (IHe s2 p Ee fuel') by (progress_facts; lengths; lia).
      exact H.
    + intros s r H [| fuel'] Hf; [lia|].
      rewrite parse_members_eq in H |- *.
      destruct (skip_ws s) as [| q s0] eqn:Ew0; [discriminate|].
      destruct (N.eqb q 34); [| discriminate].
      destruct (parse_string_body s0) as [[key s1] |] eqn:Ek; [| discriminate].
      destruct (skip_ws s1) as [| c s2] eqn:Ew1; [discriminate|].
      destruct (N.eqb c 58); [| discriminate].
      destruct (parse_value fuel s2) as [[v s3] |] eqn:Ev; [| discriminate].
      rewrite (IHv s2 (v, s3) Ev fuel') by (lengths; lia).
      destruct (skip_ws s3) as [| d s4] eqn:Ew3; [discriminate|].
      destruct (N.eqb d 44); [| exact H].
      destruct (parse_members fuel s4) as [p |] eqn:Em; [| discriminate].
      rewrite (IHm s4 p Em fuel') by (progress_facts; lengths; lia).
      exact H.
Qed.

(** [JSON_parse] does not depend on its fuel: whatever any amount of fuel
    reads as one whole value is its result. *)
Theorem JSON_parse_fuel (fuel : nat) (text : jsstring) (v : JSValue) (rest : jsstring) :
  parse_value fuel text = Some (v, rest) ->
  skip_ws rest = [] ->
  JSON_parse text = Some v.
Proof.
  intros H Hrest. unfold JSON_parse.
  rewrite (proj1 (fuel_enough fuel) text (v, rest) H) by lia.
  now rewrite Hrest.
Qed.

End Fuel.

(* ================================================================= *)
(** ** The events of the writer are well framed *)

Section Writer.

Local Open Scope N_scope.

Lemma hex4_of_control (u : code_unit) :
  u < 32 -> hex4 48 48 (hex_digit (u / 16)) (hex_digit (u mod 16)) = Some u.
Proof.
  intros H.
  assert (Hall : forallb (fun v => match hex4 48 48 (hex_digit (v / 16)) (hex_digit (v mod 16)) with
                                | Some w => w =? v
                                | None => false
                                end)
                         (map N.of_nat (seq 0 32)) = true) by reflexivity.
  rewrite forallb_forall in Hall.
  specialize (Hall u).
  assert (Hin : In u (map N.of_nat (seq 0 32))).
  { apply in_map_iff. exists (N.to_nat u). split; [apply N2Nat.id|].
    apply in_seq. lia. }
  specialize (Hall Hin).
  destruct (hex4 48 48 (hex_digit (u / 16)) (hex_digit (u mod 16))) as [w |];
    [| discriminate].
  apply N.eqb_eq in Hall. now subst.
Qed.

Lemma parse_string_body_plain (u : code_unit) (s : jsstring) :
  (u =? 34) = false -> (u =? 92) = false -> (u <? 32) = false ->
  parse_string_body (u :: s) = push_unit u (parse_string_body s).
Proof. intros H1 H2 H3. cbn [parse_string_body]. now rewrite H1, H2, H3. Qed.

Lemma parse_string_body_short (e u : code_unit) (s : jsstring) :
  (e =? 117) = false -> unescape e = Some u ->
  parse_string_body (92 :: e :: s) = push_unit u (parse_string_body s).
Proof.
  intros H1 H2. cbn [parse_string_body].
  change (92 =? 34) with false. change (92 =? 92) with true. cbv iota.
  now rewrite H1, H2.
Qed.

Lemma parse_string_body_hex (a b c d u : code_unit) (s : jsstring) :
  hex4 a b c d = Some u ->
  parse_string_body (92 :: 117 :: a :: b :: c :: d :: s)
  = push_unit u (parse_string_body s).
Proof.
  intros H. cbn [parse_string_body].
  change (92 =? 34) with false. change (92 =? 92) with true.
  change (117 =? 117) with true. cbv iota. now rewrite H.
Qed.

Lemma parse_string_body_escape_unit (u : code_unit) (s : jsstring) :
  parse_string_body (escape_unit u ++ s) = push_unit u (parse_string_body s).
Proof.
  unfold escape_unit.
  destruct (u =? 34) eqn:E34.
  { apply N.eqb_eq in E34. subst u. now apply parse_string_body_short. }
  destruct (u =? 92) eqn:E92.
  { apply N.eqb_eq in E92. subst u. now apply parse_string_body_short. }
  destruct (u =? 8) eqn:E8.
  { apply N.eqb_eq in E8. subst u. now apply parse_string_body_short. }
  destruct (u =? 9) eqn:E9.
  { apply N.eqb_eq in E9. subst u. now apply parse_string_body_short. }
  destruct (u =? 10) eqn:E10.
  { apply N.eqb_eq in E10. subst u. now apply parse_string_body_short. }
  destruct (u =? 12) eqn:E12.
  { apply N.eqb_eq in E12. subst u. now apply parse_string_body_short. }
  destruct (u =? 13) eqn:E13.
  { apply N.eqb_eq in E13. subst u. now apply parse_string_body_short. }
  destruct (u <? 32) eqn:Elt.
  { apply N.ltb_lt in Elt. cbn [app].
    now apply parse_string_body_hex, hex4_of_control. }
  cbn [app]. now apply parse_string_body_plain.
Qed.

(** Reading back what the writer wrote: the string itself, and the text
    after the closing quote. *)
Lemma parse_string_body_escaped (s rest : jsstring) :
  parse_string_body (escaped s ++ 34 :: rest) = Some (s, rest).
Proof.
  induction s as [| u s IH].
  - reflexivity.
  - unfold escaped in *. cbn [flat_map]. rewrite <- app_assoc.
    now rewrite parse_string_body_escape_unit, IH.
Qed.

Lemma hex_digit_not_line_feed (n : N) : (hex_digit n =? 10) = false.
Proof.
  unfold hex_digit. destruct (n <? 10); apply N.eqb_neq; lia.
Qed.

Lemma one_line_escaped (s : jsstring) : one_line (escaped s) = true.
Proof.
  unfold one_line, escaped. apply forallb_forall. intros c Hc.
  apply in_flat_map in Hc as [u [_ Hc]]. unfold escape_unit in Hc.
  repeat match type of Hc with
         | In _ (if ?b then _ else _) => destruct b eqn:?
         end;
    cbn [In] in Hc;
    repeat match type of Hc with
           | _ \/ _ => destruct Hc as [Hc | Hc]
           end;
    try contradiction; subst c; try reflexivity.
  - now rewrite hex_digit_not_line_feed.
  - now rewrite hex_digit_not_line_feed.
  - match goal with H : (u =? 10) = false |- _ => now rewrite H end.
Qed.

Lemma one_line_app (s t : jsstring) :
  one_line (s ++ t) = one_line s && one_line t.
Proof. apply forallb_app. Qed.

Lemma trimEnd_closed (s : jsstring) (c : code_unit) :
  isWhiteSpace c = false -> trimEnd (s ++ [c]) = s ++ [c].
Proof.
  intros H. unfold trimEnd. rewrite rev_app_distr. cbn [rev app dropWhile].
  rewrite H. cbn [rev]. now rewrite rev_involutive.
Qed.

(** The payload of a data event: the object, without the space after the
    prefix. *)
Lemma dataContent_data_event (content : jsstring) :
  dataContent (data_event content) = content_object content.
Proof.
  unfold dataContent.
  change (substring 5 (data_event content)) with (32 :: content_object content).
  unfold trim.
  change (trimStart (32 :: content_object content)) with (content_object content).
  unfold content_object. now apply trimEnd_closed.
Qed.

Lemma content_object_text (content : jsstring) :
  content_object content
  = 123 :: 34 :: 99 :: 111 :: 110 :: 116 :: 101 :: 110 :: 116 :: 34 :: 58 :: 34
        :: escaped content ++ 34 :: [125].
Proof.
  unfold content_object, quoted.
  change (escaped (js "content")) with [99; 111; 110; 116; 101; 110; 116].
  cbn [app]. now rewrite <- app_assoc.
Qed.

Lemma JSON_parse_content_object (content : jsstring) :
  JSON_parse (content_object content)
  = Some (JObject [(js "content", JString content)]).
Proof.
  apply (JSON_parse_fuel 3 _ _ []); [| reflexivity].
  rewrite content_object_text. simpl.
  rewrite parse_string_body_escaped. reflexivity.
Qed.

(** Every event of the writer is an event of the framing, for the content
    it was written for. *)
Lemma data_event_framed (content : jsstring) :
  framed (DataFrame (data_event content) content) = true.
Proof.
  cbn [framed]. rewrite dataContent_data_event, JSON_parse_content_object.
  cbn [lookup]. change (JsString.eqb (js "content") (js "content")) with true.
  cbv iota. rewrite (proj2 (jsstring_eqb_eq content content) eq_refl).
  rewrite andb_true_r. apply andb_true_intro. split; [reflexivity|].
  unfold data_event. rewrite content_object_text.
  change (123 :: 34 :: 99 :: 111 :: 110 :: 116 :: 101 :: 110 :: 116 :: 34 :: 58 :: 34
              :: escaped content ++ 34 :: [125])
    with ([123; 34; 99; 111; 110; 116; 101; 110; 116; 34; 58; 34]
            ++ escaped content ++ 34 :: [125]).
  rewrite !one_line_app, one_line_escaped. reflexivity.
Qed.

Lemma events_for_framed (contents : list jsstring) (sentinel : bool) :
  forallb framed (events_for contents sentinel) = true.
Proof.
  unfold events_for. rewrite forallb_app. apply andb_true_intro. split.
  - apply forallb_forall. intros w Hw. apply in_map_iff in Hw as [c [<- _]].
    apply data_event_framed.
  - now destruct sentinel.
Qed.

Lemma carried_events_for (contents : list jsstring) (sentinel : bool) :
  carried (events_for contents sentinel) = List.concat contents.
Proof.
  unfold events_for. induction contents as [| c contents IH]; cbn [map app List.concat carried].
  - now destruct sentinel.
  - now rewrite IH.
Qed.

(** *** Reading back a serialized plan *)

Local Close Scope N_scope.

Lemma reads_more (f0 f1 : nat) (text : jsstring) (v : JSValue) :
  reads f0 text v -> f0 <= f1 -> reads f1 text v.
Proof. intros H Hle f rest Hf. apply H. lia. Qed.

Lemma reads_quoted (s : jsstring) : reads 1 (quoted s) (JString s).
Proof.
  intros [| f] rest Hf; [lia|].
  unfold quoted. cbn [app]. rewrite <- app_assoc. rewrite parse_value_eq. simpl.
  now rewrite parse_string_body_escaped.
Qed.

Lemma parse_elements_last (f : nat) (text rest : jsstring) (v : JSValue) :
  parse_value f (text ++ 93%N :: rest) = Some (v, 93%N :: rest) ->
  parse_elements (S f) (text ++ 93%N :: rest) = Some ([v], rest).
Proof. intros H. rewrite parse_elements_eq, H. reflexivity. Qed.

Lemma parse_elements_more (f : nat) (text more rest : jsstring)
      (v : JSValue) (vs : list JSValue) :
  parse_value f (text ++ 44%N :: more) = Some (v, 44%N :: more) ->
  parse_elements f more = Some (vs, rest) ->
  parse_elements (S f) (text ++ 44%N :: more) = Some (v :: vs, rest).
Proof. intros H1 H2. rewrite parse_elements_eq, H1. simpl. now rewrite H2. Qed.

Lemma reads_elements (k : nat) (texts : list jsstring) (vs : list JSValue) :
  Forall2 (reads k) texts vs ->
  texts <> [] ->
  forall f rest, k + List.length texts <= f ->
    parse_elements f (join_comma texts ++ 93%N :: rest) = Some (vs, rest).
Proof.
  induction 1 as [| text v texts vs Hv Hall IH]; intros Hne f rest Hf.
  - now elim Hne.
  - destruct f as [| f]; [simpl in Hf; lia|]. simpl in Hf.
    destruct texts as [| text2 texts].
    + inversion Hall. subst. cbn [join_comma].
      apply parse_elements_last. apply Hv. lia.
    + change (join_comma (text :: text2 :: texts))
        with (text ++ 44%N :: join_comma (text2 :: texts)).
      rewrite <- app_assoc. cbn [app].
      apply parse_elements_more.
      * apply Hv. lia.
      * apply IH; [discriminate | lia].
Qed.

Lemma opens_value_skip (text rest : jsstring) :
  opens_value text = true ->
  exists c t, text = c :: t /\ skip_ws (text ++ rest) = c :: t ++ rest
              /\ N.eqb c 93 = false.
Proof.
  destruct text as [| c t]; [discriminate|]. cbn [opens_value].
  intros H. apply andb_prop in H as [H1 H2].
  exists c, t. repeat split.
  - unfold skip_ws. cbn [app dropWhile]. now destruct (isJsonSpace c).
  - now destruct (N.eqb c 93).
Qed.

Lemma reads_array (k : nat) (texts : list jsstring) (vs : list JSValue) :
  Forall2 (reads k) texts vs ->
  forallb opens_value texts = true ->
  reads (S (k + List.length texts)) (array_text texts) (JArray vs).
Proof.
  intros Hall Hopen [| f] rest Hf; [lia|].
  unfold array_text. cbn [app]. rewrite <- app_assoc. cbn [app].
  rewrite parse_value_eq.
  destruct texts as [| text texts].
  - inversion Hall. subst. reflexivity.
  - cbn [forallb] in Hopen. apply andb_prop in Hopen as [Hopen _].
    pose proof (reads_elements k (text :: texts) vs Hall) as He.
    specialize (He ltac:(discriminate) f rest ltac:(lia)).
    assert (Hhead : exists c t,
               skip_ws (join_comma (text :: texts) ++ 93%N :: rest) = c :: t
               /\ N.eqb c 93 = false).
    { destruct texts as [| text2 texts].
      - cbn [join_comma].
        destruct (opens_value_skip text (93%N :: rest) Hopen) as [c [t [_ [E1 E2]]]].
        eauto.
      - change (join_comma (text :: text2 :: texts))
          with (text ++ 44%N :: join_comma (text2 :: texts)).
        rewrite <- app_assoc.
        destruct (opens_value_skip text ((44%N :: join_comma (text2 :: texts)) ++ 93%N :: rest) Hopen)
          as [c [t [_ [E1 E2]]]].
        eauto. }
    destruct Hhead as [c [t [E1 E2]]].
    change (skip_ws (91%N :: ?x)) with (91%N :: x).
    cbv iota. simpl N.eqb. cbv iota.
    rewrite E1, E2, He. reflexivity.
Qed.

Lemma parse_members_last (f : nat) (key text rest : jsstring) (v : JSValue) :
  parse_value f (text ++ 125%N :: rest) = Some (v, 125%N :: rest) ->
  parse_members (S f) (34%N :: escaped key ++ 34%N :: 58%N :: text ++ 125%N :: rest)
  = Some ([(key, v)], rest).
Proof.
  intros H. rewrite parse_members_eq. simpl.
  rewrite parse_string_body_escaped. simpl. now rewrite H.
Qed.

Lemma parse_members_more (f : nat) (key text more rest : jsstring)
      (v : JSValue) (ms : list (jsstring * JSValue)) :
  parse_value f (text ++ 44%N :: more) = Some (v, 44%N :: more) ->
  parse_members f more = Some (ms, rest) ->
  parse_members (S f) (34%N :: escaped key ++ 34%N :: 58%N :: text ++ 44%N :: more)
  = Some ((key, v) :: ms, rest).
Proof.
  intros H1 H2. rewrite parse_members_eq. simpl.
  rewrite parse_string_body_escaped. simpl. rewrite H1. simpl. now rewrite H2.
Qed.

Lemma parse_value_object (f : nat) (body rest : jsstring)
      (ms : list (jsstring * JSValue)) :
  parse_members f (34%N :: body) = Some (ms, rest) ->
  parse_value (S f) (123%N :: 34%N :: body) = Some (JObject ms, rest).
Proof. intros H. rewrite parse_value_eq. simpl. simpl in H. now rewrite H. Qed.

(** An object of two members, as the writer writes it. *)
Lemma reads_object2 (k : nat) (key1 key2 text1 text2 : jsstring) (v1 v2 : JSValue) :
  reads k text1 v1 -> reads k text2 v2 ->
  reads (k + 3)
        (123%N :: quoted key1 ++ 58%N :: text1 ++ 44%N :: quoted key2 ++ 58%N
           :: text2 ++ [125%N])
        (JObject [(key1, v1); (key2, v2)]).
Proof.
  intros H1 H2 f rest Hf.
  destruct f as [| [| [| f]]]; try lia.
  unfold quoted. repeat (rewrite <- ?app_assoc; cbn [app]).
  apply parse_value_object, parse_members_more.
  - apply H1. lia.
  - apply parse_members_last. apply H2. lia.
Qed.

Lemma quoted_opens_value (s : jsstring) : opens_value (quoted s) = true.
Proof. reflexivity. Qed.

Lemma reads_strings (ss : list jsstring) :
  reads (S (1 + List.length ss)) (array_text (map quoted ss)) (JArray (map JString ss)).
Proof.
  rewrite <- (length_map quoted ss). apply reads_array.
  - induction ss as [| s ss IH]; constructor; [apply reads_quoted | exact IH].
  - apply forallb_forall. intros t Ht. apply in_map_iff in Ht as [s [<- _]].
    apply quoted_opens_value.
Qed.

Lemma reads_task (t : Task) : reads (task_fuel t) (task_text t) (task_value t).
Proof.
  unfold task_fuel, task_text, task_value.
  replace (List.length (subtasks t) + 5) with (S (1 + List.length (subtasks t)) + 3) by lia.
  apply reads_object2.
  - eapply reads_more; [apply reads_quoted | lia].
  - apply reads_strings.
Qed.

Lemma reads_each_task (k : nat) (ts : list Task) :
  Forall (fun t => task_fuel t <= k) ts ->
  Forall2 (reads k) (map task_text ts) (map task_value ts).
Proof.
  induction 1 as [| t ts Ht _ IH]; cbn [map]; constructor; [| exact IH].
  eapply reads_more; [apply reads_task | exact Ht].
Qed.

Lemma reads_tasks (ts : list Task) :
  reads (S (list_max (map task_fuel ts) + List.length ts))
        (array_text (map task_text ts)) (JArray (map task_value ts)).
Proof.
  rewrite <- (length_map task_text ts). apply reads_array.
  - apply reads_each_task.
    pose proof (proj1 (list_max_le (map task_fuel ts) _) (le_n _)) as H.
    now rewrite Forall_map in H.
  - apply forallb_forall. intros x Hx. apply in_map_iff in Hx as [t [<- _]].
    reflexivity.
Qed.

Lemma reads_plan (p : LearningPlan) :
  reads (S (list_max (map task_fuel (tasks p)) + List.length (tasks p)) + 3)
        (plan_text p) (plan_value p).
Proof.
  unfold plan_text, plan_value. apply reads_object2.
  - eapply reads_more; [apply reads_quoted | lia].
  - apply reads_tasks.
Qed.

(** The text of a plan parses to the plan, and to a value of the shape of
    the interfaces. *)
Theorem JSON_parse_plan_text (p : LearningPlan) :
  JSON_parse (plan_text p) = Some (plan_value p).
Proof.
  apply (JSON_parse_fuel
           (S (list_max (map task_fuel (tasks p)) + List.length (tasks p)) + 3) _ _ []);
    [| reflexivity].
  rewrite <- (app_nil_r (plan_text p)) at 1. now apply reads_plan.
Qed.

Lemma plan_text_not_empty (p : LearningPlan) : plan_text p <> [].
Proof. discriminate. Qed.

Lemma plan_value_is_LearningPlan (p : LearningPlan) :
  is_LearningPlan (plan_value p) = true.
Proof.
  unfold plan_value. cbn [is_LearningPlan]. simpl lookup.
  apply forallb_forall. intros v Hv. apply in_map_iff in Hv as [t [<- _]].
  unfold task_value. cbn [is_Task]. simpl lookup.
  apply forallb_forall. intros w Hw. apply in_map_iff in Hw as [s [<- _]].
  reflexivity.
Qed.

End Writer.

(* ================================================================= *)
(** ** Chunks of whole events *)

Section Chunks.

Variable number_to_string : jsstring -> jsstring.

Abbreviation outcome := (outcome number_to_string).

(** C1, as the handler has it (chunks cut at event boundaries).  Take any
    sequence of events of the wire framing and any grouping of them into
    chunks, every chunk made of whole events with their blank lines.  The
    handler ends as its final step does on the text the events carry: a
    document that this text parses to is the plan it sets, and when the
    text is the serialization of a plan the handler sets that very plan.
    Every chunk is split on its own: the split returns the events of the
    chunk and then the pieces of whatever text follows them in the same
    chunk. *)
Theorem chunks_of_whole_events_assemble
  (response : Response) (groups : list (list WireFrame)) :
  ok response = true ->
  body response = Some (map Chunk (map chunk_of groups)) ->
  forallb framed (List.concat groups) = true ->
  let buffer := carried (List.concat groups) in
  outcome (Resolved response) = fst (final_parse buffer)
  /\ (forall document,
        buffer <> [] -> JSON_parse buffer = Some document ->
        outcome (Resolved response) = Success document)
  /\ (forall plan,
        buffer = plan_text plan ->
        outcome (Resolved response) = Success (plan_value plan))
  /\ (forall group partial,
        In group groups ->
        split delimiter (chunk_of group ++ partial)
        = map frame_text group ++ split delimiter partial
        /\ (one_line partial = true ->
            split delimiter (chunk_of group ++ partial)
            = map frame_text group ++ [partial])).
Proof.
  intros Hok Hbody Hframed buffer.
  pose proof (outcome_of_whole_events number_to_string response groups Hok Hbody Hframed)
    as H.
  split; [exact H|]. split; [| split].
  - intros document Hne Hparse. rewrite H. now apply final_parse_document.
  - intros plan Hplan. rewrite H. fold buffer. rewrite Hplan.
    apply final_parse_document; [apply plan_text_not_empty | apply JSON_parse_plan_text].
  - intros group partial Hin.
    assert (Hs : split delimiter (chunk_of group ++ partial)
                 = map frame_text group ++ split delimiter partial).
    { apply split_chunk_of.
      rewrite forallb_forall in Hframed. apply forallb_forall.
      intros w Hw. apply Hframed. apply in_concat. now exists group. }
    split; [exact Hs|].
    intros Hp. now rewrite Hs, (split_one_line partial Hp).
Qed.

(** The stream of the writer: the text of a plan cut into fragments in any
    way, one event per fragment, the events grouped into chunks in any way.
    The handler sets the plan. *)
Lemma written_plan_assembles
  (response : Response) (plan : LearningPlan) (contents : list jsstring)
  (sentinel : bool) (groups : list (list WireFrame)) :
  ok response = true ->
  body response = Some (map Chunk (map chunk_of groups)) ->
  List.concat groups = events_for contents sentinel ->
  List.concat contents = plan_text plan ->
  outcome (Resolved response) = Success (plan_value plan)
  /\ is_LearningPlan (plan_value plan) = true.
Proof.
  intros Hok Hbody Hgroups Htext. split; [| apply plan_value_is_LearningPlan].
  rewrite (outcome_of_whole_events number_to_string response groups Hok Hbody).
  - rewrite Hgroups, carried_events_for, Htext.
    apply final_parse_document; [apply plan_text_not_empty | apply JSON_parse_plan_text].
  - rewrite Hgroups. apply events_for_framed.
Qed.

End Chunks.

(* ================================================================= *)
(** ** More properties of the stream handler *)

Section MoreStream.

Variable number_to_string : jsstring -> jsstring.

Abbreviation extract := (extract number_to_string).
Abbreviation for_lines := (for_lines number_to_string).
Abbreviation readLoop := (readLoop number_to_string).
Abbreviation handleStartLearning := (handleStartLearning number_to_string).
Abbreviation outcome := (outcome number_to_string).
Abbreviation events := (events number_to_string).
Abbreviation sentinel_seen := (sentinel_seen number_to_string).

(** The reads of chunks without sentinel, whatever follows them. *)
Lemma readLoop_reads_then (chunks : list jsstring) (tail : list ReadResult) (acc : jsstring) :
  sentinel_seen (frames chunks) = false ->
  readLoop (map Chunk chunks ++ tail) acc
  = (fst (readLoop tail (fst (for_lines (frames chunks) acc))),
     repeat Read (List.length chunks)
       ++ snd (readLoop tail (fst (for_lines (frames chunks) acc)))).
Proof.
  revert acc. induction chunks as [| value chunks IH]; intros acc H.
  - cbn [map app frames List.concat for_lines fst repeat List.length].
    now destruct (readLoop tail acc).
  - unfold sentinel_seen in H. rewrite frames_cons, existsb_app in H.
    apply orb_false_elim in H as [Hv Hc].
    cbn [map app]. rewrite readLoop_chunk, frames_cons, for_lines_app.
    pose proof (for_lines_no_sentinel number_to_string (split delimiter value) acc Hv) as Hb.
    destruct (for_lines (split delimiter value) acc) as [acc1 broke].
    cbn [snd] in Hb. subst broke.
    rewrite (IH acc1 Hc). reflexivity.
Qed.

(** X1.  A read that fails ends the handler with the transport failure of
    that error: the text accumulated from the chunks read before it is
    never parsed, and nothing is read after it. *)
Theorem read_failure_discards_buffer
  (response : Response) (chunks : list jsstring) (err : Thrown)
  (tail : list ReadResult) :
  ok response = true ->
  body response = Some (map Chunk chunks ++ ReadFails err :: tail) ->
  sentinel_seen (frames chunks) = false ->
  handleStartLearning (Resolved response)
  = (caught err, repeat Read (S (List.length chunks))).
Proof.
  intros Hok Hbody Hs. unfold Page.handleStartLearning.
  rewrite Hok, Hbody, (readLoop_reads_then chunks _ [] Hs).
  cbn [Page.readLoop fst snd]. f_equal.
  change (S (List.length chunks)) with (1 + List.length chunks).
  now rewrite Nat.add_comm, repeat_app.
Qed.

Lemma for_lines_extends (lines : list jsstring) (acc : jsstring) :
  exists suffix, fst (for_lines lines acc) = acc ++ suffix.
Proof.
  revert acc. induction lines as [| line lines IH]; intros acc.
  - exists []. simpl. now rewrite app_nil_r.
  - simpl. destruct (extract line) as [content | |].
    + destruct (IH (acc ++ content)) as [suffix Hs].
      exists (content ++ suffix). now rewrite Hs, app_assoc.
    + exists []. simpl. now rewrite app_nil_r.
    + apply IH.
Qed.

(** X2.  The buffer only grows: whatever the lines of a chunk and whatever
    the stream, the buffer the loops leave begins with the buffer they
    started from. *)
Theorem buffer_is_append_only (reader : list ReadResult) (lines : list jsstring)
  (acc : jsstring) :
  (exists suffix, fst (for_lines lines acc) = acc ++ suffix)
  /\ match fst (readLoop reader acc) with
     | Exited acc' => exists suffix, acc' = acc ++ suffix
     | Threw _ => True
     end.
Proof.
  split; [apply for_lines_extends|].
  revert acc. induction reader as [| [value | err] reader IH]; intros acc.
  - exists []. simpl. now rewrite app_nil_r.
  - rewrite readLoop_chunk.
    destruct (for_lines_extends (split delimiter value) acc) as [s1 Hs1].
    destruct (for_lines (split delimiter value) acc) as [acc1 [|]]; cbn [fst] in *.
    + now exists s1.
    + specialize (IH acc1). destruct (readLoop reader acc1) as [[acc2 | e] evs];
        cbn [fst] in *; [| exact I].
      destruct IH as [s2 Hs2]. exists (s1 ++ s2). now rewrite Hs2, Hs1, app_assoc.
  - exact I.
Qed.

Lemma readLoop_only_reads (reader : list ReadResult) (acc : jsstring) :
  exists n, snd (readLoop reader acc) = repeat Read (S n).
Proof.
  revert acc. induction reader as [| [value | err] reader IH]; intros acc.
  - now exists 0.
  - rewrite readLoop_chunk.
    destruct (for_lines (split delimiter value) acc) as [acc1 [|]].
    + now exists 0.
    + destruct (IH acc1) as [n Hn]. destruct (readLoop reader acc1) as [exit evs].
      cbn [snd] in *. exists (S n). now rewrite Hn.
  - now exists 0.
Qed.

(** X3.  The calls of one run: reads, then at most one final parse, made on
    a buffer that is not empty.  A run that makes no final parse sets no
    plan; a run that makes one ends as [JSON.parse] decides on that
    buffer. *)
Theorem reads_then_one_parse (fetched : FetchResult) :
  exists n,
    (events fetched = repeat Read n
     /\ forall finalPlan, outcome fetched <> Success finalPlan)
    \/ (exists buffer,
          buffer <> []
          /\ events fetched = repeat Read (S n) ++ [FinalParse buffer]
          /\ outcome fetched
             = match JSON_parse buffer with
               | Some finalPlan => Success finalPlan
               | None => ParseFailure buffer
               end).
Proof.
  unfold Page.events, Page.outcome, Page.handleStartLearning.
  destruct fetched as [err | response].
  - exists 0. left. split; [reflexivity|]. destruct err; discriminate.
  - destruct (ok response); [| exists 0; left; split; [reflexivity | discriminate]].
    destruct (body response) as [reader |];
      [| exists 0; left; split; [reflexivity | discriminate]].
    destruct (readLoop_only_reads reader []) as [n Hn].
    destruct (readLoop reader []) as [[acc | err] evs]; cbn [snd] in Hn; subst evs.
    + unfold final_parse. destruct acc as [| c acc].
      * exists (S n). left. cbn [fst snd]. rewrite app_nil_r.
        split; [reflexivity | discriminate].
      * exists n. right. exists (c :: acc). split; [discriminate|].
        destruct (JSON_parse (c :: acc)); cbn [fst snd]; split; reflexivity.
    + exists (S n). left. cbn [fst snd]. split; [reflexivity|].
      destruct err; discriminate.
Qed.

(** X4.  The failed-request message with the status of the response is set
    exactly when line 39 throws: the status is outside 200-299, or the
    response has no body (then the status shown is a success status). *)
Theorem request_failed_iff (response : Response) (s : N) :
  outcome (Resolved response) = TransportFailure (RequestFailed s)
  <-> (ok response = false \/ body response = None) /\ s = status response.
Proof.
  unfold Page.outcome, Page.handleStartLearning. split.
  - destruct (ok response).
    + destruct (body response) as [reader |].
      * destruct (readLoop reader []) as [[acc | err] evs]; cbn [fst].
        -- intros H. exfalso. pose proof (final_parse_not_transport acc (RequestFailed s)) as Hn.
           destruct (final_parse acc). cbn [fst] in *. contradiction.
        -- destruct err; discriminate.
      * cbn [fst]. intros H. injection H as <-. split; [now right | reflexivity].
    + cbn [fst]. intros H. injection H as <-. split; [now left | reflexivity].
  - intros [[H | H] ->].
    + now rewrite H.
    + rewrite H. now destruct (ok response).
Qed.

Lemma dropWhile_app (p : code_unit -> bool) (s t : jsstring) :
  dropWhile p (s ++ t)
  = match dropWhile p s with
    | [] => dropWhile p t
    | c :: s' => (c :: s') ++ t
    end.
Proof.
  induction s as [| c s IH]; cbn [app dropWhile].
  - now destruct (dropWhile p t).
  - destruct (p c); [exact IH | reflexivity].
Qed.

Lemma forallb_rev (p : code_unit -> bool) (s : jsstring) :
  forallb p s = true -> forallb p (rev s) = true.
Proof.
  rewrite !forallb_forall. intros H c Hc. apply H. now apply in_rev.
Qed.

Lemma trimEnd_app_ws (s ws : jsstring) :
  forallb isWhiteSpace ws = true -> trimEnd (s ++ ws) = trimEnd s.
Proof.
  intros H. unfold trimEnd. rewrite rev_app_distr, dropWhile_app.
  now rewrite (dropWhile_all _ _ (forallb_rev _ _ H)).
Qed.

(** White space around a text does not change what [trim] returns. *)
Lemma trim_surrounded (ws1 s ws2 : jsstring) :
  forallb isWhiteSpace ws1 = true ->
  forallb isWhiteSpace ws2 = true ->
  trim (ws1 ++ s ++ ws2) = trim s.
Proof.
  intros H1 H2. unfold trim, trimStart.
  rewrite dropWhile_app, (dropWhile_all _ _ H1), dropWhile_app.
  destruct (dropWhile isWhiteSpace s) as [| c s'].
  - now rewrite (dropWhile_all _ _ H2).
  - now apply trimEnd_app_ws.
Qed.

Lemma dataContent_prefixed (s : jsstring) : dataContent (js "data:" ++ s) = trim s.
Proof. reflexivity. Qed.

Lemma extract_prefixed (s t : jsstring) :
  trim s = trim t -> extract (js "data:" ++ s) = extract (js "data:" ++ t).
Proof.
  intros H. unfold Page.extract.
  change (startsWith (js "data:" ++ s) (js "data:")) with true.
  change (startsWith (js "data:" ++ t) (js "data:")) with true.
  now rewrite !dataContent_prefixed, H.
Qed.

(** X5.  The white space after the prefix and at the end of a frame is
    not significant: a frame is classified as the same frame without it,
    so the space after [data:] is optional. *)
Theorem payload_white_space_is_ignored (ws1 s ws2 : jsstring) :
  forallb isWhiteSpace ws1 = true ->
  forallb isWhiteSpace ws2 = true ->
  extract (js "data:" ++ ws1 ++ s ++ ws2) = extract (js "data:" ++ s)
  /\ forall rest acc,
       for_lines ((js "data:" ++ ws1 ++ s ++ ws2) :: rest) acc
       = for_lines ((js "data:" ++ s) :: rest) acc.
Proof.
  intros H1 H2.
  assert (H : extract (js "data:" ++ ws1 ++ s ++ ws2) = extract (js "data:" ++ s))
    by now apply extract_prefixed, trim_surrounded.
  split; [exact H|]. intros rest acc. cbn [Page.for_lines]. now rewrite H.
Qed.

Lemma split_not_empty (s : jsstring) : split delimiter s <> [].
Proof.
  unfold split, delimiter. generalize 0 as skip.
  induction s as [| c s IH]; intros skip; cbn [split_from]; [discriminate|].
  destruct skip; [| apply IH].
  destruct (startsWith (c :: s) [10; 10]%N); [discriminate|].
  specialize (IH 0). destruct (split_from [10; 10]%N 0 s); [contradiction | discriminate].
Qed.

Lemma join_with_push_front (c : code_unit) (parts : list jsstring) :
  parts <> [] ->
  join_with delimiter (push_front c parts) = c :: join_with delimiter parts.
Proof.
  destruct parts as [| p [| q ps]]; [contradiction | reflexivity | reflexivity].
Qed.

Lemma split_equations (s : jsstring) :
  split delimiter s
  = match s with
    | [] => [[]]
    | c :: s' =>
        match s' with
        | d :: s'' =>
            if (N.eqb c 10 && N.eqb d 10)%bool then [] :: split delimiter s''
            else push_front c (split delimiter s')
        | [] => [[c]]
        end
    end.
Proof.
  unfold split, delimiter. destruct s as [| c [| d s'']]; cbn [split_from startsWith].
  - reflexivity.
  - now rewrite andb_false_r.
  - rewrite andb_true_r. now destruct (N.eqb c 10 && N.eqb d 10)%bool.
Qed.

Lemma extract_other_start (c : code_unit) (rest : jsstring) :
  c <> 100%N -> extract (c :: rest) = Ignore.
Proof.
  intros H. apply extract_unprefixed. cbn [startsWith js map list_ascii_of_string].
  apply N.eqb_neq in H. change (N_of_ascii "d") with 100%N. now rewrite H.
Qed.

(** X6.  Three line feeds where the delimiter has two: the split cuts at
    the first two and leaves the third at the head of the next frame, which
    then lacks the prefix and is ignored, whatever it carries. *)
Theorem third_line_feed_drops_next_frame (f : jsstring) (c : code_unit) (g : jsstring) :
  one_line f = true ->
  c <> 10%N ->
  exists piece rest,
    split delimiter (c :: g) = piece :: rest
    /\ split delimiter (f ++ [10; 10; 10]%N ++ c :: g) = f :: (10%N :: piece) :: rest
    /\ extract (10%N :: piece) = Ignore.
Proof.
  intros Hf Hc.
  destruct (split delimiter (c :: g)) as [| piece rest] eqn:Hs.
  { now elim (split_not_empty (c :: g)). }
  exists piece, rest. split; [reflexivity|]. split.
  - change (f ++ [10; 10; 10]%N ++ c :: g) with (f ++ delimiter ++ 10%N :: c :: g).
    rewrite (split_frame f _ Hf). f_equal.
    rewrite split_equations. apply N.eqb_neq in Hc. rewrite Hc, andb_false_r.
    now rewrite Hs.
  - apply extract_other_start. discriminate.
Qed.

(** X7.  The split of line 52 loses nothing but the delimiters: it always
    returns at least one frame, and the frames joined again with the
    delimiter are the chunk. *)
Theorem split_partitions_chunk (value : jsstring) :
  split delimiter value <> []
  /\ join_with delimiter (split delimiter value) = value.
Proof.
  split; [apply split_not_empty|].
  remember (List.length value) as n eqn:Hn.
  assert (Hle : List.length value <= n) by lia. clear Hn.
  revert value Hle. induction n as [| n IH]; intros value Hle.
  - destruct value; [reflexivity | simpl in Hle; lia].
  - rewrite split_equations. destruct value as [| c [| d s'']]; try reflexivity.
    cbn [List.length] in Hle.
    destruct (N.eqb c 10 && N.eqb d 10)%bool eqn:E.
    + apply andb_prop in E as [Ec Ed]. apply N.eqb_eq in Ec, Ed. subst c d.
      pose proof (split_not_empty s'') as Hne.
      destruct (split delimiter s'') as [| p ps] eqn:Hs; [contradiction|].
      change (join_with delimiter ([] :: p :: ps))
        with (delimiter ++ join_with delimiter (p :: ps)).
      rewrite <- Hs, IH by lia. reflexivity.
    + rewrite join_with_push_front by apply split_not_empty.
      rewrite IH by (cbn [List.length]; lia). reflexivity.
Qed.

(** X8.  A payload that parses to [null] is ignored (the property read
    throws, line 62 catches); a payload that parses to a number, a string,
    a boolean or an array has no [content] and appends the text
    [undefined]. *)
Theorem payload_without_members (line : jsstring) (parsed : JSValue) :
  startsWith line (js "data:") = true ->
  JSON_parse (dataContent line) = Some parsed ->
  (parsed = JNull -> extract line = Ignore)
  /\ (is_plain parsed = true -> extract line = Fragment (js "undefined")).
Proof.
  intros Hprefix Hparse. unfold Page.extract. rewrite Hprefix.
  destruct (JsString.eqb (dataContent line) (js "[DONE]")) eqn:Hd.
  { apply jsstring_eqb_eq in Hd. rewrite Hd in Hparse. discriminate. }
  rewrite Hparse. split.
  - intros ->. reflexivity.
  - destruct parsed; try discriminate; reflexivity.
Qed.

Lemma extract_carries (line content : jsstring) :
  carries line content = true -> extract line = Fragment content.
Proof.
  unfold carries. intros H. apply andb_prop in H as [Hprefix H].
  unfold Page.extract. rewrite Hprefix.
  destruct (JSON_parse (dataContent line)) as [[| | | | | props] |] eqn:Hparse;
    try discriminate.
  destruct (JsString.eqb (dataContent line) (js "[DONE]")) eqn:Hd.
  { apply jsstring_eqb_eq in Hd. rewrite Hd in Hparse. discriminate. }
  cbn [content_of]. destruct (lookup (js "content") props) as [[| | | c | |] |];
    try discriminate.
  apply jsstring_eqb_eq in H. now subst.
Qed.

(** X9.  Frames that carry strings are appended as they are and in the
    order of the frames: the loop leaves the buffer followed by the
    contents, one after the other, without leaving the read loop. *)
Theorem contents_are_appended_in_order
  (lines contents : list jsstring) (acc : jsstring) :
  List.length lines = List.length contents ->
  forallb (fun lc => carries (fst lc) (snd lc)) (combine lines contents) = true ->
  for_lines lines acc = (acc ++ List.concat contents, false).
Proof.
  revert contents acc. induction lines as [| line lines IH]; intros [| c contents] acc Hlen H;
    try discriminate.
  - simpl. now rewrite app_nil_r.
  - cbn [combine forallb fst snd] in H. apply andb_prop in H as [Hc H].
    rewrite (for_lines_fragment number_to_string line c lines acc (extract_carries line c Hc)).
    rewrite (IH contents); [| now injection Hlen | exact H].
    cbn [List.concat]. now rewrite app_assoc.
Qed.

End MoreStream.

(* ================================================================= *)
(** ** The forms: what a submit sends *)

Section Forms.

Import Welcome Coach.

Lemma dropWhile_head (p : code_unit -> bool) (s : jsstring) (c : code_unit) (s' : jsstring) :
  dropWhile p s = c :: s' -> p c = false.
Proof.
  induction s as [| d s IH]; cbn [dropWhile]; [discriminate|].
  destruct (p d) eqn:E; [exact IH|]. intros H. injection H as <- _. exact E.
Qed.

Lemma dropWhile_idem (p : code_unit -> bool) (s : jsstring) :
  dropWhile p (dropWhile p s) = dropWhile p s.
Proof.
  destruct (dropWhile p s) as [| c s'] eqn:E; [reflexivity|].
  cbn [dropWhile]. now rewrite (dropWhile_head p s c s' E).
Qed.

Lemma trimEnd_idem (s : jsstring) : trimEnd (trimEnd s) = trimEnd s.
Proof. unfold trimEnd. now rewrite rev_involutive, dropWhile_idem. Qed.

Lemma trimEnd_head (c : code_unit) (s : jsstring) :
  isWhiteSpace c = false -> exists w, trimEnd (c :: s) = c :: w.
Proof.
  intros H. unfold trimEnd. cbn [rev]. rewrite dropWhile_app.
  destruct (dropWhile isWhiteSpace (rev s)) as [| d z].
  - cbn [dropWhile]. rewrite H. now exists [].
  - exists (rev (d :: z)). now rewrite rev_app_distr.
Qed.

(** A trimmed text has no white space left to trim. *)
Lemma trim_idempotent (s : jsstring) : trim (trim s) = trim s.
Proof.
  unfold trim.
  destruct (trimStart s) as [| c x] eqn:E; [reflexivity|].
  pose proof (dropWhile_head _ _ _ _ E) as Hc.
  destruct (trimEnd_head c x Hc) as [w Hw].
  rewrite Hw. unfold trimStart at 1. cbn [dropWhile]. rewrite Hc, <- Hw.
  apply trimEnd_idem.
Qed.

(** X10.  The topic form sends a request exactly when its button is
    enabled, and what it sends is the trimmed topic, which is not empty and
    has no white space around it, with the mode selected. *)
Theorem topic_submit_matches_button (form : Form) :
  (handleTopicSubmit form = None <-> topicSubmitDisabled form = true)
  /\ forall call,
       handleTopicSubmit form = Some call ->
       call = onStartLearning (trim (topic form)) (mode form)
       /\ trim (topic form) <> []
       /\ trim (trim (topic form)) = trim (topic form).
Proof.
  unfold handleTopicSubmit, topicSubmitDisabled. split.
  - destruct (trim (topic form)); split; (reflexivity || discriminate).
  - intros call H. destruct (trim (topic form)) as [| c t] eqn:E; [discriminate|].
    injection H as <-. split; [reflexivity|]. split; [discriminate|].
    rewrite <- E. apply trim_idempotent.
Qed.

(** X11.  The document form and its button disagree at one length: a
    document of exactly 100 code units after trimming enables the button,
    yet its submit sends nothing.  Everywhere else the two agree, and what
    is sent is the trimmed document. *)
Theorem doc_submit_boundary (form : Form) :
  (forall call,
     handleDocSubmit form = Some call ->
     docSubmitDisabled form = false
     /\ call = onStartLearningFromDoc (trim (docContent form))
     /\ 100 < List.length (trim (docContent form)))
  /\ (docSubmitDisabled form = false /\ handleDocSubmit form = None
      <-> List.length (trim (docContent form)) = 100).
Proof.
  unfold handleDocSubmit, docSubmitDisabled.
  destruct (Nat.ltb_spec 100 (List.length (trim (docContent form)))) as [H | H];
    destruct (Nat.ltb_spec (List.length (trim (docContent form))) 100) as [H' | H'];
    try lia; split.
  - intros call E. injection E as <-. auto.
  - split; [intros [_ E]; discriminate | lia].
  - intros call E. discriminate.
  - split; [intros [E _]; discriminate | lia].
  - intros call E. discriminate.
  - split; [lia | auto].
Qed.

(** X12.  The coach input sends a question exactly when its button is
    enabled; the question is the trimmed input, not empty; the input is
    cleared when a question is sent and kept as it is otherwise. *)
Theorem send_message_matches_button (inputValue : jsstring) :
  (fst (handleSendMessage inputValue) = None <-> sendDisabled inputValue = true)
  /\ (forall question,
        fst (handleSendMessage inputValue) = Some question ->
        question = trim inputValue /\ question <> [] /\ trim question = question
        /\ snd (handleSendMessage inputValue) = [])
  /\ (fst (handleSendMessage inputValue) = None ->
      snd (handleSendMessage inputValue) = inputValue).
Proof.
  unfold handleSendMessage, sendDisabled.
  destruct (trim inputValue) as [| c t] eqn:E; cbn [fst snd].
  - repeat split; try reflexivity; discriminate.
  - split; [split; discriminate|]. split; [| discriminate].
    intros question H. injection H as <-. repeat split; try discriminate.
    rewrite <- E. apply trim_idempotent.
Qed.

End Forms.

(* ================================================================= *)
(** ** The completed subtasks *)

Section Subtasks.

Import Dashboard.

Lemma has_In (s : StringSet) (x : jsstring) : has s x = true <-> In x s.
Proof.
  unfold has. rewrite existsb_exists. split.
  - intros [y [Hy E]]. apply jsstring_eqb_eq in E. now subst.
  - intros H. exists x. split; [exact H | now apply jsstring_eqb_eq].
Qed.

Lemma jsstring_eqb_neq (x y : jsstring) : JsString.eqb x y = false <-> x <> y.
Proof.
  split.
  - intros H E. apply jsstring_eqb_eq in E. congruence.
  - intros H. destruct (JsString.eqb x y) eqn:E; [| reflexivity].
    apply jsstring_eqb_eq in E. contradiction.
Qed.

Lemma In_delete (s : StringSet) (x y : jsstring) :
  In y (delete s x) <-> In y s /\ y <> x.
Proof.
  unfold delete. rewrite filter_In, negb_true_iff, jsstring_eqb_neq. tauto.
Qed.

Lemma In_add (s : StringSet) (x y : jsstring) :
  In y (add s x) <-> In y s \/ y = x.
Proof.
  unfold add. destruct (has s x) eqn:E.
  - apply has_In in E. split; [auto | intros [H | ->]; assumption].
  - rewrite in_app_iff. cbn [In]. intuition congruence.
Qed.

Lemma NoDup_delete (s : StringSet) (x : jsstring) : NoDup s -> NoDup (delete s x).
Proof. apply NoDup_filter. Qed.

Lemma NoDup_add (s : StringSet) (x : jsstring) : NoDup s -> NoDup (add s x).
Proof.
  intros H. unfold add. destruct (has s x) eqn:E; [exact H|].
  apply NoDup_app; [exact H | repeat constructor; intros [] | ].
  intros y Hy [<- | []]. apply has_In in Hy. congruence.
Qed.

Lemma delete_absent (s : StringSet) (x : jsstring) : ~ In x s -> delete s x = s.
Proof.
  induction s as [| a s IH]; intros H; [reflexivity|].
  cbn [delete filter]. cbn [In] in H.
  destruct (JsString.eqb a x) eqn:E.
  - apply jsstring_eqb_eq in E. tauto.
  - cbn [negb]. f_equal. apply IH. tauto.
Qed.

Lemma length_delete (s : StringSet) (x : jsstring) :
  NoDup s -> In x s -> S (List.length (delete s x)) = List.length s.
Proof.
  induction 1 as [| a s Ha Hs IH]; intros Hx; [destruct Hx|].
  cbn [delete filter]. destruct (JsString.eqb a x) eqn:E; cbn [negb].
  - apply jsstring_eqb_eq in E. subst a.
    fold (delete s x). now rewrite (delete_absent s x Ha).
  - apply jsstring_eqb_neq in E. destruct Hx as [-> | Hx]; [congruence|].
    cbn [List.length]. f_equal. now apply IH.
Qed.

Lemma bool_ext (a b : bool) : (a = true <-> b = true) -> a = b.
Proof. destruct a, b; intuition congruence. Qed.

(** What one toggle does to a set. *)
Lemma toggle_spec (s : StringSet) (taskIndex subtaskIndex : N) :
  NoDup s ->
  NoDup (toggleSubtask s taskIndex subtaskIndex)
  /\ (forall x,
        has (toggleSubtask s taskIndex subtaskIndex) x
        = if JsString.eqb x (subtaskId taskIndex subtaskIndex)
          then negb (has s (subtaskId taskIndex subtaskIndex))
          else has s x)
  /\ size (toggleSubtask s taskIndex subtaskIndex)
     = if has s (subtaskId taskIndex subtaskIndex) then pred (size s) else S (size s).
Proof.
  intros Hs. unfold toggleSubtask. set (id := subtaskId taskIndex subtaskIndex).
  cbv zeta. destruct (has s id) eqn:E.
  - split; [now apply NoDup_delete|]. split.
    + intros x. apply bool_ext. rewrite has_In, In_delete.
      destruct (JsString.eqb x id) eqn:Ex.
      * apply jsstring_eqb_eq in Ex. cbn [negb]. intuition congruence.
      * apply jsstring_eqb_neq in Ex. rewrite has_In. tauto.
    + unfold size. apply has_In in E. now rewrite <- (length_delete s id Hs E).
  - split; [now apply NoDup_add|]. split.
    + intros x. apply bool_ext. rewrite has_In, In_add.
      destruct (JsString.eqb x id) eqn:Ex.
      * apply jsstring_eqb_eq in Ex. cbn [negb]. tauto.
      * apply jsstring_eqb_neq in Ex. rewrite has_In. tauto.
    + unfold size, add. rewrite E, length_app. cbn [List.length]. lia.
Qed.

(** X13.  A click on a check box flips the membership of its identifier
    and of no other, and the size of the set moves by exactly one. *)
Theorem toggle_flips_one (s : StringSet) (taskIndex subtaskIndex : N) :
  NoDup s ->
  let id := subtaskId taskIndex subtaskIndex in
  let s' := toggleSubtask s taskIndex subtaskIndex in
  NoDup s'
  /\ has s' id = negb (has s id)
  /\ (forall x, x <> id -> has s' x = has s x)
  /\ size s' = (if has s id then pred (size s) else S (size s))
  /\ (has s id = true -> 0 < size s).
Proof.
  intros Hs id s'. destruct (toggle_spec s taskIndex subtaskIndex Hs) as [H1 [H2 H3]].
  split; [exact H1|]. split; [| split; [| split]].
  - subst s' id. rewrite H2. now rewrite (proj2 (jsstring_eqb_eq _ _) eq_refl).
  - intros x Hx. subst s'. rewrite H2. apply jsstring_eqb_neq in Hx. fold id. now rewrite Hx.
  - exact H3.
  - intros H. apply has_In in H. unfold size. destruct s; [destruct H | cbn; lia].
Qed.

(** X14.  Two clicks on the same check box restore the set: the same
    members and the same size (the order of insertion may differ). *)
Theorem toggle_twice_restores (s : StringSet) (taskIndex subtaskIndex : N) :
  NoDup s ->
  let s'' := toggleSubtask (toggleSubtask s taskIndex subtaskIndex) taskIndex subtaskIndex in
  (forall x, has s'' x = has s x) /\ size s'' = size s.
Proof.
  intros Hs s''.
  destruct (toggle_spec s taskIndex subtaskIndex Hs) as [H1 [H2 H3]].
  destruct (toggle_spec _ taskIndex subtaskIndex H1) as [_ [H2' H3']].
  subst s''. split.
  - intros x. rewrite H2', !H2.
    rewrite (proj2 (jsstring_eqb_eq (subtaskId taskIndex subtaskIndex) _) eq_refl).
    destruct (JsString.eqb x (subtaskId taskIndex subtaskIndex)) eqn:E; [| reflexivity].
    apply jsstring_eqb_eq in E. subst x. now rewrite negb_involutive.
  - rewrite H3', H2, H3.
    rewrite (proj2 (jsstring_eqb_eq (subtaskId taskIndex subtaskIndex) _) eq_refl).
    destruct (has s (subtaskId taskIndex subtaskIndex)) eqn:E; cbn [negb]; [| reflexivity].
    apply has_In in E. unfold size. destruct s; [destruct E | reflexivity].
Qed.

Lemma uint_units_inj (d d' : Decimal.uint) : uint_units d = uint_units d' -> d = d'.
Proof.
  revert d'. induction d as [| d IH | d IH | d IH | d IH | d IH | d IH | d IH | d IH | d IH | d IH];
    intros [| d' | d' | d' | d' | d' | d' | d' | d' | d' | d']; cbn [uint_units];
    try discriminate; try reflexivity;
    intros H; injection H as H; f_equal; now apply IH.
Qed.

Lemma uint_units_no_dash (d : Decimal.uint) : ~ In 45%N (uint_units d).
Proof.
  induction d; cbn [uint_units In]; intros H; try contradiction;
    destruct H as [H | H]; try discriminate; contradiction.
Qed.

Lemma dash_splits (d1 e1 d2 e2 : jsstring) :
  ~ In 45%N d1 -> ~ In 45%N d2 ->
  d1 ++ 45%N :: e1 = d2 ++ 45%N :: e2 -> d1 = d2 /\ e1 = e2.
Proof.
  revert d2. induction d1 as [| c d1 IH]; intros [| c2 d2] H1 H2 H; cbn [app In] in *.
  - injection H as ->. auto.
  - injection H as <- _. tauto.
  - injection H as -> _. tauto.
  - injection H as -> H. destruct (IH d2) as [-> ->]; tauto.
Qed.

Lemma subtaskId_inj (i j i' j' : N) :
  subtaskId i j = subtaskId i' j' -> i = i' /\ j = j'.
Proof.
  unfold subtaskId, index_text. intros H.
  apply dash_splits in H as [H1 H2]; try apply uint_units_no_dash.
  apply uint_units_inj, DecimalN.Unsigned.to_uint_inj in H1.
  apply uint_units_inj, DecimalN.Unsigned.to_uint_inj in H2. auto.
Qed.

(** X15.  The identifiers of the check boxes are distinct: two subtasks
    share one exactly when they are the same subtask of the same task. *)
Theorem subtaskId_injective (taskIndex subtaskIndex taskIndex' subtaskIndex' : N) :
  subtaskId taskIndex subtaskIndex = subtaskId taskIndex' subtaskIndex'
  <-> taskIndex = taskIndex' /\ subtaskIndex = subtaskIndex'.
Proof.
  split; [apply subtaskId_inj | now intros [-> ->]].
Qed.

Lemma In_indices {A : Type} (l : list A) (j : N) :
  In j (indices l) <-> N.to_nat j < List.length l.
Proof.
  unfold indices. rewrite in_map_iff. split.
  - intros [k [<- Hk]]. apply in_seq in Hk. rewrite Nat2N.id. lia.
  - intros H. exists (N.to_nat j). split; [apply N2Nat.id | apply in_seq; lia].
Qed.

Lemma length_indices {A : Type} (l : list A) : List.length (indices l) = List.length l.
Proof. unfold indices. now rewrite length_map, length_seq. Qed.

Lemma NoDup_indices {A : Type} (l : list A) : NoDup (indices l).
Proof.
  unfold indices. apply NoDup_map_NoDup_ForallPairs; [| apply seq_NoDup].
  intros x y _ _. apply Nat2N.inj.
Qed.

Lemma In_combine_seq {A : Type} (l : list A) (start k : nat) (x : A) :
  nth_error l k = Some x ->
  In (N.of_nat (start + k), x) (combine (map N.of_nat (seq start (List.length l))) l).
Proof.
  revert start k. induction l as [| a l IH]; intros start [| k] H; try discriminate.
  - injection H as ->. left. now rewrite Nat.add_0_r.
  - right. cbn [List.length seq map combine].
    replace (start + S k) with (S start + k) by lia. now apply IH.
Qed.

Lemma In_indexed {A : Type} (l : list A) (i : N) (x : A) :
  nth_error l (N.to_nat i) = Some x -> In (i, x) (indexed l).
Proof.
  intros H. unfold indexed, indices.
  rewrite <- (N2Nat.id i). apply (In_combine_seq l 0 (N.to_nat i) x H).
Qed.

Lemma checkbox_box_id (plan : LearningPlan) (taskIndex subtaskIndex : N) :
  checkbox plan taskIndex subtaskIndex = true ->
  In (subtaskId taskIndex subtaskIndex) (box_ids plan).
Proof.
  unfold checkbox, box_ids.
  destruct (nth_error (tasks plan) (N.to_nat taskIndex)) as [task |] eqn:E; [| discriminate].
  intros H. apply Nat.ltb_lt in H. apply in_flat_map.
  exists (taskIndex, task). split; [now apply In_indexed|].
  cbn [fst snd]. apply in_map. now apply In_indices.
Qed.

Lemma fold_left_sum {A : Type} (f : A -> nat) (l : list A) (a : nat) :
  fold_left (fun sum x => sum + f x) l a = a + list_sum (map f l).
Proof.
  revert a. induction l as [| x l IH]; intros a; simpl; [lia|].
  rewrite IH. lia.
Qed.

Lemma list_sum_combine_snd {A : Type} (g : A -> nat) (l1 : list N) (l2 : list A) :
  List.length l1 = List.length l2 ->
  list_sum (map (fun it => g (snd it)) (combine l1 l2)) = list_sum (map g l2).
Proof.
  revert l2. induction l1 as [| i l1 IH]; intros [| x l2] H; try discriminate; [reflexivity|].
  simpl. f_equal. apply IH. now injection H.
Qed.

(** There are as many check boxes as [totalSubtasks] counts. *)
Lemma length_box_ids (plan : LearningPlan) :
  List.length (box_ids plan) = totalSubtasks plan.
Proof.
  unfold box_ids, totalSubtasks. rewrite length_flat_map, fold_left_sum. cbn [Nat.add].
  rewrite <- (list_sum_combine_snd (fun t => List.length (subtasks t))
                (indices (tasks plan)) (tasks plan) (length_indices _)).
  unfold indexed. f_equal. apply map_ext. intros it.
  now rewrite length_map, length_indices.
Qed.

Lemma In_toggle (s : StringSet) (taskIndex subtaskIndex : N) (x : jsstring) :
  In x (toggleSubtask s taskIndex subtaskIndex) ->
  In x s \/ x = subtaskId taskIndex subtaskIndex.
Proof.
  unfold toggleSubtask. cbv zeta.
  destruct (has s (subtaskId taskIndex subtaskIndex)).
  - rewrite In_delete. tauto.
  - rewrite In_add. tauto.
Qed.

(** The sets that clicks on the check boxes of a plan reach. *)
Lemma clicks_invariant (plan : LearningPlan) (boxes : list (N * N)) (s : StringSet) :
  forallb (fun box => checkbox plan (fst box) (snd box)) boxes = true ->
  NoDup s -> incl s (box_ids plan) ->
  NoDup (clicks boxes s) /\ incl (clicks boxes s) (box_ids plan).
Proof.
  unfold clicks. revert s. induction boxes as [| [i j] boxes IH]; intros s H Hs Hincl.
  - now split.
  - cbn [forallb fst snd] in H. apply andb_prop in H as [Hbox H].
    cbn [fold_left fst snd]. apply IH; [exact H | now apply toggle_spec |].
    intros x Hx. apply In_toggle in Hx as [Hx | ->]; [now apply Hincl|].
    now apply checkbox_box_id.
Qed.

(** X16.  Starting from the empty set, clicks on the check boxes of one
    plan keep the set within the identifiers of that plan, so the number of
    completed subtasks never exceeds [totalSubtasks]. *)
Theorem completed_never_exceeds_total (plan : LearningPlan) (boxes : list (N * N)) :
  forallb (fun box => checkbox plan (fst box) (snd box)) boxes = true ->
  NoDup (clicks boxes [])
  /\ (forall x, In x (clicks boxes []) ->
       exists taskIndex subtaskIndex,
         checkbox plan taskIndex subtaskIndex = true
         /\ x = subtaskId taskIndex subtaskIndex)
  /\ completedCount (clicks boxes []) <= totalSubtasks plan.
Proof.
  intros H.
  destruct (clicks_invariant plan boxes [] H (NoDup_nil _) (incl_nil_l _)) as [Hn Hi].
  split; [exact Hn|]. split.
  - intros x Hx. apply Hi in Hx. unfold box_ids in Hx.
    apply in_flat_map in Hx as [[i task] [Hit Hx]]. cbn [fst snd] in Hx.
    apply in_map_iff in Hx as [j [<- Hj]]. exists i, j. split; [| reflexivity].
    unfold checkbox. unfold indexed in Hit.
    assert (Hnth : nth_error (tasks plan) (N.to_nat i) = Some task).
    { clear - Hit. unfold indices in Hit.
      generalize dependent (tasks plan). intros l.
      assert (G : forall start,
                 In (i, task) (combine (map N.of_nat (seq start (List.length l))) l) ->
                 start <= N.to_nat i /\ nth_error l (N.to_nat i - start) = Some task).
      { induction l as [| a l IH]; intros start Hin; [destruct Hin|].
        cbn [List.length seq map combine In] in Hin. destruct Hin as [E | Hin].
        - injection E as <- ->. rewrite Nat2N.id, Nat.sub_diag. split; [lia | reflexivity].
        - destruct (IH (S start) Hin) as [Hle Hn]. split; [lia|].
          replace (N.to_nat i - start) with (S (N.to_nat i - S start)) by lia.
          exact Hn. }
      intros Hin. destruct (G 0 Hin) as [_ Hn]. now rewrite Nat.sub_0_r in Hn. }
    rewrite Hnth. apply Nat.ltb_lt. now apply In_indices.
  - unfold completedCount, size. rewrite <- length_box_ids.
    now apply NoDup_incl_length.
Qed.

Lemma length_filter_combine {A : Type} (f : N -> bool) (l1 : list N) (l2 : list A) :
  List.length l1 = List.length l2 ->
  List.length (filter (fun indexed => f (fst indexed)) (combine l1 l2))
  = List.length (filter f l1).
Proof.
  revert l2. induction l1 as [| i l1 IH]; intros [| x l2] H; try discriminate; [reflexivity|].
  cbn [combine filter fst]. destruct (f i); cbn [List.length]; rewrite IH; auto.
Qed.

Lemma taskCompletedSubtasks_count (s : StringSet) (taskIndex : N) (task : Task) :
  taskCompletedSubtasks s taskIndex task
  = List.length (filter (fun j => has s (subtaskId taskIndex j)) (indices (subtasks task))).
Proof.
  unfold taskCompletedSubtasks.
  apply (length_filter_combine (fun j => has s (subtaskId taskIndex j))).
  apply length_indices.
Qed.

Lemma length_filter_le {A : Type} (f : A -> bool) (l : list A) :
  List.length (filter f l) <= List.length l.
Proof.
  induction l as [| x l IH]; cbn [filter List.length]; [lia|].
  destruct (f x); cbn [List.length]; lia.
Qed.

(** X17.  The plan view strikes a task through exactly when the
    identifier of every one of its subtasks is in the set, so a task
    without subtasks is always struck through; the dashboard asks in
    addition for at least one subtask.  The two tests agree on every task
    that has a subtask, and the counter of a task never exceeds the number
    of its subtasks. *)
Theorem task_completed_iff_all_subtasks (s : StringSet) (taskIndex : N) (task : Task) :
  isTaskCompleted_plan s taskIndex task
  = forallb (fun j => has s (subtaskId taskIndex j)) (indices (subtasks task))
  /\ isTaskCompleted_dashboard s taskIndex task
     = negb (Nat.eqb (List.length (subtasks task)) 0)
       && isTaskCompleted_plan s taskIndex task
  /\ (subtasks task = [] ->
      isTaskCompleted_plan s taskIndex task = true
      /\ isTaskCompleted_dashboard s taskIndex task = false)
  /\ taskCompletedSubtasks s taskIndex task <= List.length (subtasks task).
Proof.
  assert (Hp : isTaskCompleted_plan s taskIndex task
               = forallb (fun j => has s (subtaskId taskIndex j)) (indices (subtasks task))).
  { unfold isTaskCompleted_plan. rewrite taskCompletedSubtasks_count.
    rewrite <- (length_indices (subtasks task)). apply bool_ext. rewrite Nat.eqb_eq. split.
    - apply filter_length_forallb.
    - intros H. now rewrite forallb_filter_id. }
  split; [exact Hp|]. split; [| split].
  - unfold isTaskCompleted_dashboard. fold (isTaskCompleted_plan s taskIndex task).
    f_equal. now destruct (List.length (subtasks task)).
  - intros E. unfold isTaskCompleted_dashboard. rewrite Hp, E. split; reflexivity.
  - rewrite taskCompletedSubtasks_count, <- (length_indices (subtasks task)).
    apply length_filter_le.
Qed.

Lemma map_fst_combine {A : Type} (l1 : list N) (l2 : list A) :
  List.length l1 = List.length l2 -> map fst (combine l1 l2) = l1.
Proof.
  revert l2. induction l1 as [| i l1 IH]; intros [| x l2] H; try discriminate; [reflexivity|].
  cbn [combine map fst]. f_equal. apply IH. now injection H.
Qed.

Lemma NoDup_flat_map_indexed {A : Type} (g : N -> A -> list jsstring) (l : list (N * A)) :
  NoDup (map fst l) ->
  (forall i x, NoDup (g i x)) ->
  (forall i x i' x' b, In b (g i x) -> In b (g i' x') -> i = i') ->
  NoDup (flat_map (fun it => g (fst it) (snd it)) l).
Proof.
  intros Hl Hg Hd. induction l as [| [i x] l IH]; [constructor|].
  cbn [map fst] in Hl. inversion Hl as [| ? ? Hi Hl']. subst.
  cbn [flat_map fst snd]. apply NoDup_app; [apply Hg | now apply IH |].
  intros b Hb Hb'. apply in_flat_map in Hb' as [[i' x'] [Hin Hb']].
  cbn [fst snd] in Hb'. rewrite (Hd _ _ _ _ _ Hb Hb') in Hi.
  apply Hi. apply in_map_iff. now exists (i', x').
Qed.

Lemma NoDup_box_ids (plan : LearningPlan) : NoDup (box_ids plan).
Proof.
  unfold box_ids.
  apply (NoDup_flat_map_indexed
           (fun i task => map (subtaskId i) (indices (subtasks task)))).
  - unfold indexed. rewrite map_fst_combine by apply length_indices. apply NoDup_indices.
  - intros i task. apply NoDup_map_NoDup_ForallPairs; [| apply NoDup_indices].
    intros j j' _ _ H. now apply subtaskId_inj in H.
  - intros i task i' task' b Hb Hb'.
    apply in_map_iff in Hb as [j [<- _]]. apply in_map_iff in Hb' as [j' [Hb' _]].
    now apply subtaskId_inj in Hb'.
Qed.

Lemma length_filter_flat_map {A : Type} (p : jsstring -> bool) (f : A -> list jsstring)
      (l : list A) :
  List.length (filter p (flat_map f l))
  = list_sum (map (fun x => List.length (filter p (f x))) l).
Proof.
  induction l as [| x l IH]; [reflexivity|].
  cbn [flat_map map]. rewrite filter_app, length_app, IH. reflexivity.
Qed.

Lemma length_filter_map (p : jsstring -> bool) (g : N -> jsstring) (l : list N) :
  List.length (filter p (map g l)) = List.length (filter (fun j => p (g j)) l).
Proof.
  induction l as [| j l IH]; [reflexivity|].
  cbn [map filter]. destruct (p (g j)); cbn [List.length]; now rewrite IH.
Qed.

(** X18.  After clicks on the check boxes of one plan, the counters shown
    on the task cards add up to the number of completed subtasks that the
    progress bar is computed from. *)
Theorem task_counters_add_up (plan : LearningPlan) (boxes : list (N * N)) :
  forallb (fun box => checkbox plan (fst box) (snd box)) boxes = true ->
  list_sum (map (fun it => taskCompletedSubtasks (clicks boxes []) (fst it) (snd it))
                (indexed (tasks plan)))
  = completedCount (clicks boxes []).
Proof.
  intros H.
  destruct (clicks_invariant plan boxes [] H (NoDup_nil _) (incl_nil_l _)) as [Hn Hi].
  set (s := clicks boxes []) in *.
  transitivity (List.length (filter (has s) (box_ids plan))).
  - unfold box_ids. rewrite length_filter_flat_map. f_equal. apply map_ext.
    intros [i task]. cbn [fst snd].
    now rewrite taskCompletedSubtasks_count, length_filter_map.
  - unfold completedCount, size. apply Nat.le_antisymm.
    + apply NoDup_incl_length; [apply NoDup_filter, NoDup_box_ids|].
      intros x Hx. apply filter_In in Hx as [_ Hx]. now apply has_In.
    + apply NoDup_incl_length; [exact Hn|].
      intros x Hx. apply filter_In. split; [now apply Hi | now apply has_In].
Qed.

End Subtasks.

(* ================================================================= *)
(** ** The page: the document handler, the state, the screens *)

Section HomeProperties.

Import Home.

Variable number_to_string : jsstring -> jsstring.
Variable number_truthy : jsstring -> bool.

Abbreviation ToBoolean := (ToBoolean number_truthy).
Abbreviation truthy := (truthy number_truthy).
Abbreviation no_plan := (no_plan number_to_string number_truthy).
Abbreviation handleStartLearningFromDoc :=
  (handleStartLearningFromDoc number_to_string number_truthy).
Abbreviation calls_handleStartLearning := (calls_handleStartLearning number_to_string).
Abbreviation calls_handleStartLearningFromDoc :=
  (calls_handleStartLearningFromDoc number_to_string number_truthy).
Abbreviation render := (render number_truthy).

Lemma no_plan_sets_error (data : JSValue) : exists text, no_plan data = ErrorSet text.
Proof.
  unfold Home.no_plan. destruct (member (js "detail") data) as [[detail |] |]; eauto.
  destruct (ToBoolean detail); eauto.
  destruct (ToString number_to_string detail); eauto.
Qed.

(** X19.  The document handler sets a plan exactly when the response has a
    success status, its body is JSON that is not [null], and the members
    [success] and [plan] of that value are both truthy; the plan it sets is
    the member as it is, whatever its shape. *)
Theorem document_plan_iff (fetched : DocFetch) (plan : JSValue) :
  handleStartLearningFromDoc fetched = PlanSet plan
  <-> exists response text data success,
        fetched = DocResolved response
        /\ doc_ok response = true
        /\ doc_body response = BodyText text
        /\ JSON_parse text = Some data
        /\ member (js "success") data = Some (Some success)
        /\ ToBoolean success = true
        /\ member (js "plan") data = Some (Some plan)
        /\ ToBoolean plan = true.
Proof.
  unfold Home.handleStartLearningFromDoc. split.
  - destruct fetched as [err | response]; [discriminate|].
    destruct (doc_ok response) eqn:Hok; [| discriminate].
    destruct (doc_body response) as [text | err] eqn:Hbody; [| discriminate].
    destruct (JSON_parse text) as [data |] eqn:Hparse; [| discriminate].
    destruct (member (js "success") data) as [success |] eqn:Hs; [| discriminate].
    destruct (member (js "plan") data) as [p |] eqn:Hp; [| discriminate].
    destruct (truthy success && truthy p) eqn:Ht.
    + apply andb_prop in Ht as [Ht1 Ht2].
      destruct p as [value |]; [| discriminate].
      destruct success as [s |]; [| discriminate].
      intros H. injection H as ->.
      exists response, text, data, s. repeat split; assumption.
    + intros H. destruct (no_plan_sets_error data) as [t Ht']. congruence.
  - intros [response [text [data [success [-> [Hok [Hbody [Hparse [Hs [Hts [Hp Htp]]]]]]]]]]].
    rewrite Hok, Hbody, Hparse, Hs, Hp. cbn [Home.truthy]. now rewrite Hts, Htp.
Qed.

(** X20.  The failures of the document handler.  A status outside 200-299
    is reported with the status, whatever the body holds, even a valid
    plan.  For a body that answers without a usable plan, the error shown
    is the [detail] of the answer when it is a string that is not empty,
    and the fixed text when the answer has no [detail]. *)
Theorem document_failures (response : DocResponse) :
  (doc_ok response = false ->
   handleStartLearningFromDoc (DocResolved response)
   = ErrorSet (RequestFailedText (doc_status response)))
  /\ (forall text props,
        doc_ok response = true ->
        doc_body response = BodyText text ->
        JSON_parse text = Some (JObject props) ->
        truthy (lookup (js "success") props) && truthy (lookup (js "plan") props) = false ->
        (forall detail,
           lookup (js "detail") props = Some (JString detail) -> detail <> [] ->
           handleStartLearningFromDoc (DocResolved response)
           = ErrorSet (MessageText detail))
        /\ (lookup (js "detail") props = None ->
            handleStartLearningFromDoc (DocResolved response) = ErrorSet NoPlanText)).
Proof.
  unfold Home.handleStartLearningFromDoc. split.
  - intros H. now rewrite H.
  - intros text props Hok Hbody Hparse Hf. rewrite Hok, Hbody, Hparse.
    cbn [member]. rewrite Hf. unfold Home.no_plan. cbn [member]. split.
    + intros detail Hd Hne. rewrite Hd. cbn [Home.ToBoolean ToString].
      destruct detail; [contradiction | reflexivity].
    + intros Hd. now rewrite Hd.
Qed.

Lemma run_app (calls1 calls2 : list Setter) (st : State) :
  run (calls1 ++ calls2) st = run calls2 (run calls1 st).
Proof. apply fold_left_app. Qed.

(** The state a handler leaves, from what it decided. *)
Lemma state_after_start (topic : jsstring) (fetched : FetchResult) (st : State) :
  run (calls_handleStartLearning topic fetched) st
  = {| currentView := dashboard;
       learningTopic := topic;
       learningPlan := match outcome number_to_string fetched with
                       | Success finalPlan => finalPlan
                       | _ => JNull
                       end;
       isLoading := false;
       error := match outcome number_to_string fetched with
                | Success _ => None
                | ParseFailure _ => Some ParseErrorText
                | TransportFailure reason => Some (reason_text reason)
                end |}.
Proof.
  unfold Home.calls_handleStartLearning.
  destruct (outcome number_to_string fetched); reflexivity.
Qed.

Lemma state_after_document (fetched : DocFetch) (st : State) :
  run (calls_handleStartLearningFromDoc fetched) st
  = {| currentView := dashboard;
       learningTopic := document_topic;
       learningPlan := match handleStartLearningFromDoc fetched with
                       | PlanSet plan => plan
                       | ErrorSet _ => JNull
                       end;
       isLoading := false;
       error := match handleStartLearningFromDoc fetched with
                | PlanSet _ => None
                | ErrorSet text => Some text
                end |}.
Proof.
  unfold Home.calls_handleStartLearningFromDoc.
  destruct (handleStartLearningFromDoc fetched); reflexivity.
Qed.

(** X21.  Whatever state a handler starts from and whatever the server
    answers, the state it leaves shows the dashboard, is not loading, and
    never holds both a plan and an error; nothing of the state before the
    run is left.  The way back restores the initial state. *)
Theorem handlers_leave_a_clean_state
  (topic : jsstring) (fetched : FetchResult) (fetched_doc : DocFetch) (st st' : State) :
  let after := run (calls_handleStartLearning topic fetched) st in
  let after_doc := run (calls_handleStartLearningFromDoc fetched_doc) st in
  (currentView after = dashboard /\ isLoading after = false
   /\ (error after <> None -> learningPlan after = JNull)
   /\ after = run (calls_handleStartLearning topic fetched) st')
  /\ (currentView after_doc = dashboard /\ isLoading after_doc = false
      /\ (error after_doc <> None -> learningPlan after_doc = JNull)
      /\ after_doc = run (calls_handleStartLearningFromDoc fetched_doc) st')
  /\ run calls_handleBackToWelcome after = initial
  /\ run calls_handleBackToWelcome after_doc = initial.
Proof.
  cbv zeta. rewrite !state_after_start, !state_after_document. cbn [currentView isLoading error learningPlan].
  repeat split; try reflexivity.
  - destruct (outcome number_to_string fetched); [intros H; now elim H | reflexivity | reflexivity].
  - destruct (handleStartLearningFromDoc fetched_doc); [intros H; now elim H | reflexivity].
Qed.


End HomeProperties.

(* ================================================================= *)
(** ** The chat and the plan of the dashboard *)

Section ChatProperties.

Import Dashboard Home Chat.

Variable number_to_string : jsstring -> jsstring.
Variable number_truthy : jsstring -> bool.

Abbreviation ToBoolean := (Home.ToBoolean number_truthy).
Abbreviation truthy := (Home.truthy number_truthy).
Abbreviation triggerPlanAdjustment := (triggerPlanAdjustment number_to_string number_truthy).
Abbreviation handleAdjustPlanFromButton :=
  (handleAdjustPlanFromButton number_to_string number_truthy).
Abbreviation handleFeedbackAndAdjust :=
  (handleFeedbackAndAdjust number_to_string number_truthy).
Abbreviation handleAskCoach := (handleAskCoach number_to_string number_truthy).
Abbreviation handleElaborateTask := (handleElaborateTask number_truthy).
Abbreviation step := (step number_to_string number_truthy).
Abbreviation steps := (steps number_to_string number_truthy).

Ltac grown :=
  unfold grows, addChatMessage, setCurrentPlan;
  cbn [fst chatMessages completedSubtasks currentTaskIndex];
  split; [| split; reflexivity];
  rewrite <- ?app_assoc; cbn [app];
  do 3 eexists; (split; [reflexivity |]);
  first [ left; reflexivity | right; do 2 eexists; reflexivity ].

Ltac cases :=
  repeat match goal with
         | |- context [match ?x with _ => _ end] => destruct x
         end.

Lemma triggerPlanAdjustment_grows (st : State) (insights : list Content)
      (reply : DocFetch) (now1 now2 : N) :
  grows st (fst (triggerPlanAdjustment st insights reply now1 now2)) assistant.
Proof. unfold Chat.triggerPlanAdjustment. cases; grown. Qed.

Lemma handleAdjustPlanFromButton_grows (st : State) (reply : DocFetch) (now1 now2 : N) :
  grows st (fst (handleAdjustPlanFromButton st reply now1 now2)) assistant.
Proof.
  unfold Chat.handleAdjustPlanFromButton.
  destruct (userInsights st); [grown | apply triggerPlanAdjustment_grows].
Qed.

Lemma handleAskCoach_grows (st : State) (question : jsstring)
      (reply : DocFetch) (now1 now2 : N) :
  grows st (fst (handleAskCoach st question reply now1 now2)) user.
Proof. unfold Chat.handleAskCoach. cbv zeta. cases; grown. Qed.

Lemma handleElaborateTask_grows (st : State) (reply : DocFetch) (now1 now2 : N) :
  grows st (fst (handleElaborateTask st reply now1 now2)) assistant.
Proof. unfold Chat.handleElaborateTask. cbv zeta. cases; grown. Qed.

Lemma grows_extends (st st' : State) (r : Role) :
  grows st st' r -> exists added, chatMessages st' = chatMessages st ++ added.
Proof. intros [[c [now [later [H _]]]] _]. eauto. Qed.

Lemma step_preserves (st : State) (ev : Event) :
  currentTaskIndex (step st ev) = currentTaskIndex st
  /\ (NoDup (completedSubtasks st) -> NoDup (completedSubtasks (step st ev)))
  /\ exists added, chatMessages (step st ev) = chatMessages st ++ added.
Proof.
  destruct ev as [i j | reply n1 n2 | c p reply n1 n2 | q reply n1 n2 | reply n1 n2];
    cbn [Chat.step].
  - unfold toggle, setCompletedSubtasks.
    cbn [currentTaskIndex completedSubtasks chatMessages].
    split; [reflexivity|]. split.
    + intros H. now apply toggle_spec.
    + exists []. now rewrite app_nil_r.
  - destruct (handleAdjustPlanFromButton_grows st reply n1 n2) as [Hc [Hs Hi]].
    split; [exact Hi|]. split; [now rewrite Hs|].
    apply (grows_extends st _ assistant). now split.
  - destruct (triggerPlanAdjustment_grows st [Feedback p c] reply n1 n2) as [Hc [Hs Hi]].
    split; [exact Hi|]. split; [unfold Chat.handleFeedbackAndAdjust; now rewrite Hs|].
    apply (grows_extends st _ assistant). now split.
  - destruct (handleAskCoach_grows st q reply n1 n2) as [Hc [Hs Hi]].
    split; [exact Hi|]. split; [now rewrite Hs|].
    apply (grows_extends st _ user). now split.
  - destruct (handleElaborateTask_grows st reply n1 n2) as [Hc [Hs Hi]].
    split; [exact Hi|]. split; [now rewrite Hs|].
    apply (grows_extends st _ assistant). now split.
Qed.


(** X24.  Each event changes its own part of the state only.  A click
    leaves the chat and the plan as they are; a question or an elaboration
    leaves the plan and the completed subtasks; an adjustment of the plan
    leaves the completed subtasks, so identifiers ticked on the plan before
    stay in the set after the plan is replaced. *)
Theorem events_change_their_part (st : State) (ev : Event) :
  match ev with
  | Click _ _ =>
      chatMessages (step st ev) = chatMessages st
      /\ currentPlan (step st ev) = currentPlan st
  | Ask _ _ _ _ | Elaborate _ _ _ =>
      currentPlan (step st ev) = currentPlan st
      /\ completedSubtasks (step st ev) = completedSubtasks st
  | AdjustButton _ _ _ | GiveFeedback _ _ _ _ _ =>
      completedSubtasks (step st ev) = completedSubtasks st
  end.
Proof.
  destruct ev as [i j | reply n1 n2 | c p reply n1 n2 | q reply n1 n2 | reply n1 n2];
    cbn [Chat.step].
  - split; reflexivity.
  - apply handleAdjustPlanFromButton_grows.
  - apply (triggerPlanAdjustment_grows st [Feedback p c] reply n1 n2).
  - split; [| apply handleAskCoach_grows].
    unfold Chat.handleAskCoach. cbv zeta. cases; reflexivity.
  - split; [| apply handleElaborateTask_grows].
    unfold Chat.handleElaborateTask. cbv zeta. cases; reflexivity.
Qed.

(** X25.  An adjustment replaces the plan only by the truthy member [plan]
    of a successful reply: the plan after it is the plan before it, or that
    member as it is.  So a dashboard that has a plan never loses it through
    an adjustment. *)
Theorem adjustment_replaces_plan_only_on_success
  (st : State) (insights : list Content) (reply : DocFetch) (now1 now2 : N) :
  let st' := fst (triggerPlanAdjustment st insights reply now1 now2) in
  (currentPlan st' = currentPlan st
   \/ exists response text data success,
        reply = DocResolved response
        /\ doc_ok response = true
        /\ doc_body response = BodyText text
        /\ JSON_parse text = Some data
        /\ member (js "success") data = Some (Some success)
        /\ ToBoolean success = true
        /\ member (js "plan") data = Some (Some (currentPlan st'))
        /\ ToBoolean (currentPlan st') = true)
  /\ (ToBoolean (currentPlan st) = true -> ToBoolean (currentPlan st') = true).
Proof.
  cbv zeta.
  assert (G : currentPlan (fst (triggerPlanAdjustment st insights reply now1 now2))
              = currentPlan st
              \/ exists response text data success,
                   reply = DocResolved response
                   /\ doc_ok response = true
                   /\ doc_body response = BodyText text
                   /\ JSON_parse text = Some data
                   /\ member (js "success") data = Some (Some success)
                   /\ ToBoolean success = true
                   /\ member (js "plan") data
                      = Some (Some (currentPlan
                                      (fst (triggerPlanAdjustment st insights reply now1 now2))))
                   /\ ToBoolean (currentPlan
                                   (fst (triggerPlanAdjustment st insights reply now1 now2)))
                      = true).
  { unfold Chat.triggerPlanAdjustment.
    destruct (negb (ToBoolean (currentPlan st))); [now left|].
    destruct insights as [| insight insights]; [now left|].
    cbv zeta. unfold awaited.
    destruct reply as [err | response]; [now left|].
    destruct (doc_ok response) eqn:Hok; [| now left].
    destruct (doc_body response) as [text | err] eqn:Hbody; [| now left].
    destruct (JSON_parse text) as [data |] eqn:Hparse; [| now left].
    destruct (member (js "success") data) as [success |] eqn:Hs; [| now left].
    destruct (member (js "plan") data) as [p |] eqn:Hp; [| now left].
    destruct (truthy success && truthy p) eqn:Ht.
    - apply andb_prop in Ht as [Ht1 Ht2].
      destruct p as [value |]; [| now left].
      destruct success as [s |]; [| discriminate].
      right. exists response, text, data, s.
      cbn [fst addChatMessage setCurrentPlan currentPlan]. repeat split; assumption.
    - left. cases; reflexivity. }
  split; [exact G|].
  intros H. destruct G as [-> | [_ [_ [_ [_ [_ [_ [_ [_ [_ [_ [_ G]]]]]]]]]]]]; assumption.
Qed.

Lemma userInsights_add (st : State) (r : Role) (c : Content) (now : N) :
  userInsights (addChatMessage st r c now)
  = userInsights st ++ match r with user => [c] | assistant => [] end.
Proof.
  unfold Chat.userInsights, addChatMessage. cbn [chatMessages].
  rewrite filter_app, map_app. now destruct r.
Qed.

Lemma userInsights_setCurrentPlan (st : State) (plan : JSValue) :
  userInsights (setCurrentPlan st plan) = userInsights st.
Proof. reflexivity. Qed.

Ltac insights :=
  cases;
  cbn [fst];
  rewrite ?userInsights_add, ?userInsights_setCurrentPlan, ?userInsights_add,
    <- ?app_assoc, ?app_nil_r;
  reflexivity.

Lemma userInsights_step (st : State) (ev : Event) :
  userInsights (step st ev) = userInsights st ++ map Text (asked [ev]).
Proof.
  destruct ev as [i j | reply n1 n2 | c p reply n1 n2 | q reply n1 n2 | reply n1 n2];
    cbn [Chat.step Chat.asked flat_map app map]; rewrite ?app_nil_r.
  - reflexivity.
  - unfold Chat.handleAdjustPlanFromButton.
    remember (userInsights st) as given eqn:E.
    destruct given as [| insight given].
    + cbn [fst]. now rewrite userInsights_add, app_nil_r.
    + rewrite E. unfold Chat.triggerPlanAdjustment. cbv zeta.
      clear E. generalize (userInsights st) at 1 as sent. intros sent.
      destruct sent; insights.
  - unfold Chat.handleFeedbackAndAdjust, Chat.triggerPlanAdjustment. cbv zeta. insights.
  - unfold Chat.handleAskCoach. cbv zeta. insights.
  - unfold Chat.handleElaborateTask. cbv zeta. insights.
Qed.

Lemma asked_app (evs evs' : list Event) : asked (evs ++ evs') = asked evs ++ asked evs'.
Proof. unfold Chat.asked. now rewrite flat_map_app. Qed.

Lemma userInsights_steps (evs : list Event) (st : State) :
  userInsights (steps evs st) = userInsights st ++ map Text (asked evs).
Proof.
  unfold Chat.steps. revert st. induction evs as [| ev evs IH]; intros st.
  - cbn. now rewrite app_nil_r.
  - cbn [fold_left]. rewrite IH, userInsights_step.
    change (ev :: evs) with ([ev] ++ evs).
    now rewrite asked_app, map_app, app_assoc.
Qed.

Lemma triggerPlanAdjustment_requests
  (st : State) (insights : list Content) (reply : DocFetch) (now1 now2 : N) :
  snd (triggerPlanAdjustment st insights reply now1 now2)
  = ToBoolean (currentPlan st) && match insights with [] => false | _ :: _ => true end.
Proof.
  unfold Chat.triggerPlanAdjustment.
  destruct (ToBoolean (currentPlan st)); cbn [negb andb]; [| reflexivity].
  destruct insights; [reflexivity|]. cbv zeta. cases; reflexivity.
Qed.


(** X27.  The answer of the coach.  When the plan lets the request be
    built and the reply is a successful one whose [answer] is a string that
    is not empty, the chat gets the question and then the answer: followed
    by the postscript of line 266 when the question has more than five
    code units, as it is otherwise.  A reply whose [success] or [answer] is
    falsy adds nothing after the question. *)
Theorem coach_answer
  (st : State) (question : jsstring) (response : DocResponse) (text : jsstring)
  (data : JSValue) (success answer : option JSValue) (now1 now2 : N) :
  context_evaluates (currentPlan st) = true ->
  doc_ok response = true ->
  doc_body response = BodyText text ->
  JSON_parse text = Some data ->
  member (js "success") data = Some success ->
  member (js "answer") data = Some answer ->
  let st1 := addChatMessage st user (Text question) now1 in
  let result := handleAskCoach st question (DocResolved response) now1 now2 in
  (forall a,
     truthy success = true -> answer = Some (JString a) -> a <> [] ->
     result
     = (addChatMessage st1 assistant
          (if Nat.ltb 5 (List.length question) then Advised a else Value (JString a))
          now2, true))
  /\ (truthy success && truthy answer = false -> result = (st1, true)).
Proof.
  intros Hc Hok Hbody Hparse Hs Ha st1 result. subst result st1.
  unfold Chat.handleAskCoach. cbv zeta. unfold awaited.
  rewrite Hc, Hok, Hbody, Hparse, Hs, Ha. split.
  - intros a Ht -> Hne. rewrite Ht.
    destruct a as [| c a]; [now elim Hne|]. cbn [Home.truthy Home.ToBoolean andb].
    now destruct (Nat.ltb 5 (List.length question)).
  - intros ->. reflexivity.
Qed.

Lemma is_Task_not_null (tasks : list JSValue) :
  forallb is_Task tasks = true ->
  forallb (fun t => match t with JNull => false | _ => true end) tasks = true.
Proof.
  induction tasks as [| t tasks IH]; [reflexivity|].
  cbn [forallb]. intros H. apply andb_prop in H as [Ht Hts].
  rewrite (IH Hts). now destruct t.
Qed.

(** X28.  A question is sent to the coach exactly when the expression of
    line 258 has a value: the plan is [null], or an object whose [tasks] is
    an array without [null].  Every value of the shape of a learning plan
    is such a plan.  On any other plan (the page accepts every truthy JSON
    value) no request is made and the chat gets the question followed by
    the message of the TypeError. *)
Theorem question_needs_readable_plan
  (st : State) (question : jsstring) (reply : DocFetch) (now1 now2 : N) :
  snd (handleAskCoach st question reply now1 now2) = context_evaluates (currentPlan st)
  /\ (is_LearningPlan (currentPlan st) = true ->
      snd (handleAskCoach st question reply now1 now2) = true)
  /\ (context_evaluates (currentPlan st) = false ->
      chatMessages (fst (handleAskCoach st question reply now1 now2))
      = chatMessages st ++ [message user (Text question) now1;
                            message assistant (EngineMessage TypeError) now2]).
Proof.
  assert (H : snd (handleAskCoach st question reply now1 now2)
              = context_evaluates (currentPlan st)).
  { unfold Chat.handleAskCoach. cbv zeta.
    destruct (context_evaluates (currentPlan st)); [| reflexivity].
    cases; reflexivity. }
  split; [exact H|]. split.
  - intros Hp. rewrite H. destruct (currentPlan st) as [| | | | | props]; try discriminate.
    cbn [is_LearningPlan Chat.context_evaluates] in *.
    destruct (lookup (js "title") props) as [[| | | | |] |]; try discriminate.
    destruct (lookup (js "tasks") props) as [[| | | | tasks |] |]; try discriminate.
    now apply is_Task_not_null.
  - intros Hc. unfold Chat.handleAskCoach. cbv zeta. rewrite Hc.
    unfold addChatMessage. cbn [fst chatMessages]. now rewrite <- app_assoc.
Qed.


End ChatProperties.

(* ================================================================= *)
(** ** The claims on concrete streams

    The examples run the handler with [literal_text] for the formatting of
    numbers.  In the literals an apostrophe stands for the double quote and
    a dollar sign for the line feed (see [wire]). *)

(** The stream of the example of the specification, as one text. *)
Definition example_text : jsstring :=
  wire "data: {'content':'{\'title\':\'X\','}$$data: {'content':'\'tasks\':[]}'}$$data: [DONE]$$".

Definition example_document : JSValue :=
  JObject [(js "title", JString (js "X")); (js "tasks", JArray [])].

(** C1 fails on the handler: cut inside its first frame, the example stream
    loses the content of that frame.  The first chunk ends in a frame that
    [JSON.parse] rejects, the second begins with a frame without prefix;
    both are dropped, nothing is carried from one chunk to the next, and the
    text left does not parse. *)
Lemma cut_inside_a_frame_loses_content :
  let chunk1 := wire "data: {'content':'{\'ti" in
  let chunk2 := wire "tle\':\'X\','}$$data: {'content':'\'tasks\':[]}'}$$data: [DONE]$$" in
  chunk1 ++ chunk2 = example_text
  /\ is_LearningPlan example_document = true
  /\ outcome literal_text (streamed [example_text]) = Success example_document
  /\ outcome literal_text (streamed [chunk1; chunk2]) = ParseFailure (wire "'tasks':[]}")
  /\ outcome literal_text (streamed [chunk1; chunk2]) <> Success example_document.
Proof.
  cbv zeta. repeat split; try reflexivity.
  vm_compute. discriminate.
Qed.

(** C2 fails on the handler: a buffer that is valid JSON but no learning
    plan ends in [Success]. *)
Lemma valid_json_of_another_shape_is_success :
  let buffer := wire "{'plan':1}" in
  let value := JObject [(js "plan", JNumber (js "1"))] in
  JSON_parse buffer = Some value
  /\ is_LearningPlan value = false
  /\ handleStartLearning literal_text
       (streamed [wire "data: {'content':'{\'plan\':1}'}$$data: [DONE]$$"])
     = (Success value, [Read; FinalParse buffer]).
Proof. cbv zeta. repeat split; reflexivity. Qed.

(** The chunks-of-whole-events theorem on the example of the
    specification. *)
Lemma chunks_of_whole_events_assemble_witness :
  let groups :=
    [[DataFrame (wire "data: {'content':'{\'title\':\'X\','}") (wire "{'title':'X',")];
     [DataFrame (wire "data: {'content':'\'tasks\':[]}'}") (wire "'tasks':[]}");
      SentinelFrame (js "data: [DONE]")]] in
  let response := {| status := 200; body := Some (map Chunk (map chunk_of groups)) |} in
  ok response = true
  /\ body response = Some (map Chunk (map chunk_of groups))
  /\ forallb framed (List.concat groups) = true
  /\ (let buffer := carried (List.concat groups) in
      outcome literal_text (Resolved response) = fst (final_parse buffer)
      /\ (forall document,
            buffer <> [] -> JSON_parse buffer = Some document ->
            outcome literal_text (Resolved response) = Success document)
      /\ (forall plan,
            buffer = plan_text plan ->
            outcome literal_text (Resolved response) = Success (plan_value plan))
      /\ (forall group partial,
            In group groups ->
            split delimiter (chunk_of group ++ partial)
            = map frame_text group ++ split delimiter partial
            /\ (one_line partial = true ->
                split delimiter (chunk_of group ++ partial)
                = map frame_text group ++ [partial]))).
Proof.
  intros groups response.
  split; [reflexivity|]. split; [reflexivity|]. split; [reflexivity|].
  apply (chunks_of_whole_events_assemble literal_text response groups); reflexivity.
Defined.

Lemma success_iff_buffer_parses_witness :
  let reader := [Chunk (wire "data: {'content':'[1]'}$$")] in
  let response := {| status := 200; body := Some reader |} in
  let acc := js "[1]" in
  let reads := [Read; Read] in
  ok response = true
  /\ body response = Some reader
  /\ readLoop literal_text reader [] = (Exited acc, reads)
  /\ ((forall finalPlan,
         outcome literal_text (Resolved response) = Success finalPlan
         <-> acc <> [] /\ JSON_parse acc = Some finalPlan)
      /\ (acc = [] \/ JSON_parse acc = None ->
          outcome literal_text (Resolved response) = ParseFailure acc)).
Proof.
  intros reader response acc reads.
  split; [reflexivity|]. split; [reflexivity|]. split; [reflexivity|].
  apply (success_iff_buffer_parses literal_text response reader acc reads); reflexivity.
Defined.

Lemma absent_content_appends_undefined_witness :
  let line := wire "data: {}" in
  let props : list (jsstring * JSValue) := [] in
  let rest := [wire "data: [DONE]"] in
  let acc := wire "{'title':" in
  startsWith line (js "data:") = true
  /\ JSON_parse (dataContent line) = Some (JObject props)
  /\ lookup (js "content") props = None
  /\ (extract literal_text line = Fragment (js "undefined")
      /\ for_lines literal_text (line :: rest) acc
         = for_lines literal_text rest (acc ++ js "undefined")
      /\ acc ++ js "undefined" <> acc).
Proof.
  intros line props rest acc.
  split; [reflexivity|]. split; [reflexivity|]. split; [reflexivity|].
  apply (absent_content_appends_undefined literal_text line props rest acc); reflexivity.
Defined.

Lemma sentinel_precedence_witness :
  let value := wire "data: {'content':'a'}$$data: [DONE]$$data: {'content':'b'}$$" in
  let before := [wire "data: {'content':'a'}"] in
  let d := js "data: [DONE]" in
  let after := [wire "data: {'content':'b'}"; []] in
  let rest := [Chunk (wire "data: {'content':'c'}$$")] in
  let acc : jsstring := [] in
  split delimiter value = before ++ d :: after
  /\ extract literal_text d = Done
  /\ (for_lines literal_text (before ++ d :: after) acc
      = (fst (for_lines literal_text before acc), true)
      /\ readLoop literal_text (Chunk value :: rest) acc
         = (Exited (fst (for_lines literal_text before acc)), [Read])).
Proof.
  intros value before d after rest acc.
  split; [reflexivity|]. split; [reflexivity|].
  apply (sentinel_precedence literal_text value before after d rest acc); reflexivity.
Defined.

Lemma close_is_implicit_termination_witness :
  let chunks := [wire "data: {'content':'{\'title\':\'X\','}$$";
                 wire "data: {'content':'\'tasks\':[]}'}$$"] in
  let response := {| status := 200; body := Some (map Chunk chunks) |} in
  ok response = true
  /\ body response = Some (map Chunk chunks)
  /\ sentinel_seen literal_text (frames chunks) = false
  /\ (let buffer := fst (for_lines literal_text (frames chunks) []) in
      let reads := repeat Read (S (List.length chunks)) in
      handleStartLearning literal_text (Resolved response)
      = (fst (final_parse buffer), reads ++ snd (final_parse buffer))
      /\ (forall reason,
            outcome literal_text (Resolved response) <> TransportFailure reason)
      /\ handleStartLearning literal_text (Resolved response)
         = match buffer with
           | [] => (ParseFailure [], reads)
           | _ :: _ =>
               (match JSON_parse buffer with
                | Some finalPlan => Success finalPlan
                | None => ParseFailure buffer
                end,
                reads ++ [FinalParse buffer])
           end).
Proof.
  intros chunks response.
  split; [reflexivity|]. split; [reflexivity|]. split; [reflexivity|].
  apply (close_is_implicit_termination literal_text response chunks); reflexivity.
Defined.

Lemma empty_stream_failure_witness :
  let reader := [Chunk (wire ": ping$$"); Chunk (wire "data: [DONE]$$")] in
  let response := {| status := 200; body := Some reader |} in
  let reads := [Read; Read] in
  ok response = true
  /\ body response = Some reader
  /\ readLoop literal_text reader [] = (Exited [], reads)
  /\ (handleStartLearning literal_text (Resolved response) = (ParseFailure [], reads)
      /\ forall finalPlan,
           outcome literal_text (Resolved response) <> Success finalPlan).
Proof.
  intros reader response reads.
  split; [reflexivity|]. split; [reflexivity|]. split; [reflexivity|].
  apply (empty_stream_failure literal_text response reader reads); reflexivity.
Defined.

Lemma non_success_status_fails_at_once_witness :
  let response :=
    {| status := 500; body := Some [Chunk (wire "data: {'content':'[]'}$$")] |} in
  ok response = false
  /\ handleStartLearning literal_text (Resolved response)
     = (TransportFailure (RequestFailed (status response)), []).
Proof.
  intros response. split; [reflexivity|].
  apply (non_success_status_fails_at_once literal_text response); reflexivity.
Defined.

Lemma malformed_frame_resilience_witness :
  let chunks := [wire ": ping$$data: {'content':'[1'}$$data: {'content$$";
                 wire "retry: 3"; wire "data: {'content':',2]'}$$data: [1,$$"] in
  let chunks' := [wire "data: {'content':'[1'}$$data: {'content':',2]'}"] in
  let tail := [ReadFails OtherValue] in
  let response := {| status := 200; body := Some (map Chunk chunks ++ tail) |} in
  let response' := {| status := 200; body := Some (map Chunk chunks' ++ tail) |} in
  ok response = true
  /\ ok response' = true
  /\ body response = Some (map Chunk chunks ++ tail)
  /\ body response' = Some (map Chunk chunks' ++ tail)
  /\ filter well_formed (frames chunks) = filter well_formed (frames chunks')
  /\ (outcome literal_text (Resolved response) = outcome literal_text (Resolved response')
      /\ forall line, malformed line = true ->
           extract literal_text line = Ignore
           /\ forall rest acc,
                for_lines literal_text (line :: rest) acc = for_lines literal_text rest acc).
Proof.
  intros chunks chunks' tail response response'.
  split; [reflexivity|]. split; [reflexivity|]. split; [reflexivity|].
  split; [reflexivity|]. split; [reflexivity|].
  apply (malformed_frame_resilience literal_text response response' chunks chunks' tail);
    reflexivity.
Defined.

Lemma unprefixed_sentinel_ignored_witness :
  let line := js " [DONE] " in
  let rest := [wire "data: {'content':'x'}"] in
  let acc : jsstring := [] in
  trim line = js "[DONE]"
  /\ startsWith line (js "data:") = false
  /\ (extract literal_text line = Ignore
      /\ for_lines literal_text (line :: rest) acc = for_lines literal_text rest acc
      /\ forall value reader,
           split delimiter value = [line] ->
           readLoop literal_text (Chunk value :: reader) acc
           = (let (exit, evs) := readLoop literal_text reader acc in (exit, Read :: evs))).
Proof.
  intros line rest acc.
  split; [reflexivity|]. split; [reflexivity|].
  apply (unprefixed_sentinel_ignored literal_text line rest acc); reflexivity.
Defined.

Lemma blank_payload_ignored_witness :
  let ws : jsstring := [32; 9; 160; 13; 12288]%N in
  let rest := [wire "data: {'content':'x'}"] in
  let acc := js "[" in
  forallb isWhiteSpace ws = true
  /\ (dataContent (js "data:" ++ ws) = []
      /\ extract literal_text (js "data:" ++ ws) = Ignore
      /\ for_lines literal_text ((js "data:" ++ ws) :: rest) acc
         = for_lines literal_text rest acc).
Proof.
  intros ws rest acc. split; [reflexivity|].
  apply (blank_payload_ignored literal_text ws rest acc); reflexivity.
Defined.

(* ================================================================= *)
(** ** The further properties on concrete inputs *)

Lemma read_failure_discards_buffer_witness :
  let chunks := [wire "data: {'content':'[1'}$$"] in
  let err := ErrorObject (js "network error") in
  let tail := [Chunk (wire "data: {'content':']'}$$data: [DONE]$$")] in
  let response := {| status := 200;
                     body := Some (map Chunk chunks ++ ReadFails err :: tail) |} in
  ok response = true
  /\ body response = Some (map Chunk chunks ++ ReadFails err :: tail)
  /\ sentinel_seen literal_text (frames chunks) = false
  /\ handleStartLearning literal_text (Resolved response)
     = (caught err, repeat Read (S (List.length chunks))).
Proof.
  intros chunks err tail response.
  split; [reflexivity|]. split; [reflexivity|]. split; [reflexivity|].
  apply (read_failure_discards_buffer literal_text response chunks err tail); reflexivity.
Defined.

Lemma payload_white_space_is_ignored_witness :
  let ws1 := [32; 9; 160]%N in
  let s := wire "{'content':'a b'}" in
  let ws2 := [13; 32]%N in
  forallb isWhiteSpace ws1 = true
  /\ forallb isWhiteSpace ws2 = true
  /\ extract literal_text (js "data:" ++ ws1 ++ s ++ ws2)
     = extract literal_text (js "data:" ++ s)
  /\ forall rest acc,
       for_lines literal_text ((js "data:" ++ ws1 ++ s ++ ws2) :: rest) acc
       = for_lines literal_text ((js "data:" ++ s) :: rest) acc.
Proof.
  intros ws1 s ws2.
  split; [reflexivity|]. split; [reflexivity|].
  apply (payload_white_space_is_ignored literal_text ws1 s ws2); reflexivity.
Defined.

Lemma third_line_feed_drops_next_frame_witness :
  let f := wire "data: {'content':'[1'}" in
  let c := 100%N in
  let g := wire "ata: {'content':']'}$$data: [DONE]$$" in
  one_line f = true
  /\ c <> 10%N
  /\ exists piece rest,
       split delimiter (c :: g) = piece :: rest
       /\ split delimiter (f ++ [10; 10; 10]%N ++ c :: g) = f :: (10%N :: piece) :: rest
       /\ extract literal_text (10%N :: piece) = Ignore.
Proof.
  intros f c g.
  split; [reflexivity|]. split; [discriminate|].
  apply (third_line_feed_drops_next_frame literal_text f c g); [reflexivity | discriminate].
Defined.

Lemma payload_without_members_witness :
  let line := wire "data: ['a', 'b']" in
  let parsed := JArray [JString (js "a"); JString (js "b")] in
  startsWith line (js "data:") = true
  /\ JSON_parse (dataContent line) = Some parsed
  /\ (parsed = JNull -> extract literal_text line = Ignore)
  /\ (is_plain parsed = true -> extract literal_text line = Fragment (js "undefined")).
Proof.
  intros line parsed.
  split; [reflexivity|]. split; [reflexivity|].
  apply (payload_without_members literal_text line parsed); reflexivity.
Defined.

Lemma contents_are_appended_in_order_witness :
  let lines := [wire "data: {'content':'[1,'}"; wire "data:{'content':'2]'}"] in
  let contents := [js "[1,"; js "2]"] in
  let acc := js " " in
  List.length lines = List.length contents
  /\ forallb (fun lc => carries (fst lc) (snd lc)) (combine lines contents) = true
  /\ for_lines literal_text lines acc = (acc ++ List.concat contents, false).
Proof.
  intros lines contents acc.
  split; [reflexivity|]. split; [reflexivity|].
  apply (contents_are_appended_in_order literal_text lines contents acc); reflexivity.
Defined.

Lemma toggle_flips_one_witness :
  let s := [js "0-1"; js "2-0"] in
  let taskIndex := 2%N in
  let subtaskIndex := 0%N in
  NoDup s
  /\ (let id := Dashboard.subtaskId taskIndex subtaskIndex in
      let s' := Dashboard.toggleSubtask s taskIndex subtaskIndex in
      NoDup s'
      /\ Dashboard.has s' id = negb (Dashboard.has s id)
      /\ (forall x, x <> id -> Dashboard.has s' x = Dashboard.has s x)
      /\ Dashboard.size s' = (if Dashboard.has s id then pred (Dashboard.size s)
                              else S (Dashboard.size s))
      /\ (Dashboard.has s id = true -> 0 < Dashboard.size s)).
Proof.
  intros s taskIndex subtaskIndex.
  assert (H : NoDup s).
  { constructor; [simpl; intros [E | []]; discriminate E|].
    constructor; [intros []|]. constructor. }
  split; [exact H|].
  apply (toggle_flips_one s taskIndex subtaskIndex H).
Defined.

Lemma toggle_twice_restores_witness :
  let s := [js "0-1"; js "2-0"; js "1-1"] in
  let taskIndex := 0%N in
  let subtaskIndex := 1%N in
  NoDup s
  /\ (let s'' := Dashboard.toggleSubtask
                   (Dashboard.toggleSubtask s taskIndex subtaskIndex)
                   taskIndex subtaskIndex in
      (forall x, Dashboard.has s'' x = Dashboard.has s x)
      /\ Dashboard.size s'' = Dashboard.size s).
Proof.
  intros s taskIndex subtaskIndex.
  assert (H : NoDup s).
  { constructor; [simpl; intros [E | [E | []]]; discriminate E|].
    constructor; [simpl; intros [E | []]; discriminate E|].
    constructor; [intros []|]. constructor. }
  split; [exact H|].
  apply (toggle_twice_restores s taskIndex subtaskIndex H).
Defined.

Lemma completed_never_exceeds_total_witness :
  let plan := {| title := js "Rocq";
                 tasks := [ {| description := js "read"; subtasks := [js "a"; js "b"] |};
                            {| description := js "write"; subtasks := [js "c"] |} ] |} in
  let boxes := [(0, 1); (1, 0); (0, 1); (0, 0)]%N in
  forallb (fun box => Dashboard.checkbox plan (fst box) (snd box)) boxes = true
  /\ NoDup (Dashboard.clicks boxes [])
  /\ (forall x, In x (Dashboard.clicks boxes []) ->
        exists taskIndex subtaskIndex,
          Dashboard.checkbox plan taskIndex subtaskIndex = true
          /\ x = Dashboard.subtaskId taskIndex subtaskIndex)
  /\ Dashboard.completedCount (Dashboard.clicks boxes []) <= Dashboard.totalSubtasks plan.
Proof.
  intros plan boxes.
  split; [reflexivity|].
  apply (completed_never_exceeds_total plan boxes); reflexivity.
Defined.

Lemma task_counters_add_up_witness :
  let plan := {| title := js "Rocq";
                 tasks := [ {| description := js "read"; subtasks := [js "a"; js "b"] |};
                            {| description := js "write"; subtasks := [js "c"] |} ] |} in
  let boxes := [(0, 1); (1, 0); (0, 1); (0, 0)]%N in
  forallb (fun box => Dashboard.checkbox plan (fst box) (snd box)) boxes = true
  /\ list_sum (map (fun it => Dashboard.taskCompletedSubtasks
                               (Dashboard.clicks boxes []) (fst it) (snd it))
                   (indexed (tasks plan)))
     = Dashboard.completedCount (Dashboard.clicks boxes []).
Proof.
  intros plan boxes.
  split; [reflexivity|].
  apply (task_counters_add_up plan boxes); reflexivity.
Defined.

Lemma coach_answer_witness :
  let plan := plan_value
                {| title := js "Rocq";
                   tasks := [ {| description := js "read"; subtasks := [js "a"; js "b"] |} ] |} in
  let st := Chat.mount (js "Rocq") plan 1700000000000 in
  let question := js "Why induction?" in
  let text := wire "{'success': true, 'answer': 'Follow the data.'}" in
  let response := {| Home.doc_status := 200; Home.doc_body := Home.BodyText text |} in
  let data := JObject [(js "success", JBool true);
                       (js "answer", JString (js "Follow the data."))] in
  let success := Some (JBool true) in
  let answer := Some (JString (js "Follow the data.")) in
  Chat.context_evaluates (Chat.currentPlan st) = true
  /\ Home.doc_ok response = true
  /\ Home.doc_body response = Home.BodyText text
  /\ JSON_parse text = Some data
  /\ Home.member (js "success") data = Some success
  /\ Home.member (js "answer") data = Some answer
  /\ (let st1 := Chat.addChatMessage st Chat.user (Chat.Text question) 1 in
      let result := Chat.handleAskCoach literal_text literal_truthy st question
                      (Home.DocResolved response) 1 2 in
      (forall a,
         Home.truthy literal_truthy success = true -> answer = Some (JString a) -> a <> [] ->
         result
         = (Chat.addChatMessage st1 Chat.assistant
              (if Nat.ltb 5 (List.length question) then Chat.Advised a
               else Chat.Value (JString a))
              2, true))
      /\ (Home.truthy literal_truthy success && Home.truthy literal_truthy answer = false ->
          result = (st1, true))).
Proof.
  intros plan st question text response data success answer.
  split; [reflexivity|]. split; [reflexivity|]. split; [reflexivity|].
  split; [reflexivity|]. split; [reflexivity|]. split; [reflexivity|].
  apply (coach_answer literal_text literal_truthy st question response text data
                      success answer 1 2); reflexivity.
Defined.
